(** * pytube: stream manifest mutations and the stream container

    A shallow embedding of [pytube/mixins.py] (in-place manifest
    transforms) and [pytube/streams.py] (the [Stream] container and its
    download pipeline), with the properties of the design document stated
    and proved over it.

    Python values are embedded as a small universe [PyVal]; dictionaries
    are insertion-ordered association lists; exceptions are the [Err]
    branch of [Exc]; in-place mutation is explicit state passing, and a
    computation that raises still returns the state it reached. *)

From Stdlib Require Import ZArith String Ascii List Lia.
From stdpp Require Import base option list strings gmap.

Local Open Scope Z_scope.

(** ** Python values, exceptions and the built-in operations used *)

Module Py.

(** The values a player configuration can hold. A [str] is kept as the
    sequence of its UTF-8 bytes. *)
#[warnings="-register-all"]
Inductive PyVal : Type :=
| VNone
| VBool (b : bool)
| VInt (n : Z)
| VStr (s : string)
| VList (l : list PyVal)
| VDict (d : list (string * PyVal)).

(** A [dict] with [str] keys, in insertion order. *)
Definition PyDict : Type := list (string * PyVal).

Inductive PyErr : Type :=
| KeyError (key : string)
| IndexError
| TypeError
| ValueError
| AttributeError (attr : string)
| UnknownFormatError (itag : Z)
| Raised (cls msg : string).   (* raised by an external collaborator *)

Inductive Exc (A : Type) : Type :=
| Ok (a : A)
| Err (e : PyErr).
Arguments Ok {A} a.
Arguments Err {A} e.

Definition exc_bind {A B} (m : Exc A) (k : A -> Exc B) : Exc B :=
  match m with
  | Ok a => k a
  | Err e => Err e
  end.

Declare Scope exc_scope.
Delimit Scope exc_scope with exc.
Notation "x <- m ;; k" := (exc_bind m (fun x => k))
  (at level 100, m at next level, right associativity) : exc_scope.

(** [bool(v)] *)
Definition truthy (v : PyVal) : bool :=
  match v with
  | VNone => false
  | VBool b => b
  | VInt n => negb (n =? 0)
  | VStr s => negb (String.eqb s "")
  | VList l => match l with [] => false | _ => true end
  | VDict d => match d with [] => false | _ => true end
  end.

(** *** dict operations *)

Fixpoint dict_get {V} (d : list (string * V)) (k : string) : option V :=
  match d with
  | [] => None
  | (k', v) :: rest => if String.eqb k' k then Some v else dict_get rest k
  end.

(** [d[k] = v]: an existing key keeps its position, a new one is appended. *)
Fixpoint dict_set {V} (d : list (string * V)) (k : string) (v : V)
  : list (string * V) :=
  match d with
  | [] => [(k, v)]
  | (k', v') :: rest =>
      if String.eqb k' k then (k', v) :: rest else (k', v') :: dict_set rest k v
  end.

(** [{k: v for k, v in pairs}] *)
Definition dict_of_pairs {V} (pairs : list (string * V)) : list (string * V) :=
  fold_left (fun d kv => dict_set d (fst kv) (snd kv)) pairs [].

(** [v[key]] for a [str] key: only a dict can be subscripted by a string. *)
Definition py_getitem (v : PyVal) (key : string) : Exc PyVal :=
  match v with
  | VDict d =>
      match dict_get d key with
      | Some x => Ok x
      | None => Err (KeyError key)
      end
  | _ => Err TypeError
  end.

(** [v[key] = x] for a [str] key. *)
Definition py_setitem (v : PyVal) (key : string) (x : PyVal) : Exc PyVal :=
  match v with
  | VDict d => Ok (VDict (dict_set d key x))
  | _ => Err TypeError
  end.

(** [v.get(key, default)] *)
Definition py_get (v : PyVal) (key : string) (default : PyVal) : Exc PyVal :=
  match v with
  | VDict d =>
      match dict_get d key with
      | Some x => Ok x
      | None => Ok default
      end
  | _ => Err (AttributeError "get")
  end.

(** *** str operations *)

(** [needle in hay] on two strings *)
Fixpoint str_contains (needle hay : string) : bool :=
  String.prefix needle hay ||
  match hay with
  | EmptyString => false
  | String _ rest => str_contains needle rest
  end.

(** [s.split(sep)] for a one-character separator *)
Fixpoint str_split (sep : ascii) (s : string) : list string :=
  match s with
  | EmptyString => [EmptyString]
  | String c rest =>
      if Ascii.eqb c sep then EmptyString :: str_split sep rest
      else match str_split sep rest with
           | [] => [String c EmptyString]
           | h :: t => String c h :: t
           end
  end.

(** [s.split(sep, 1)] for a one-character separator *)
Fixpoint str_split_once (sep : ascii) (s : string) : list string :=
  match s with
  | EmptyString => [EmptyString]
  | String c rest =>
      if Ascii.eqb c sep then [EmptyString; rest]
      else match str_split_once sep rest with
           | [] => [String c EmptyString]
           | h :: t => String c h :: t
           end
  end.

(** [s.replace(a, b)] for one-character [a] and [b] *)
Fixpoint str_replace (a b : ascii) (s : string) : string :=
  match s with
  | EmptyString => EmptyString
  | String c rest =>
      String (if Ascii.eqb c a then b else c) (str_replace a b rest)
  end.

(** [x in v] for a string [x]: substring of a str, element of a list, key
    of a dict. *)
Definition py_contains (x : string) (v : PyVal) : Exc bool :=
  match v with
  | VStr s => Ok (str_contains x s)
  | VList l =>
      Ok (existsb (fun e => match e with
                            | VStr s => String.eqb s x
                            | _ => false
                            end) l)
  | VDict d => Ok (existsb (fun kv => String.eqb (fst kv) x) d)
  | _ => Err TypeError
  end.

(** [v + s] for a string [s] *)
Definition py_add_str (v : PyVal) (s : string) : Exc string :=
  match v with
  | VStr u => Ok (u +:+ s)
  | _ => Err TypeError
  end.

(** The elements a [for] loop visits. *)
Definition py_iter (v : PyVal) : Exc (list PyVal) :=
  match v with
  | VList l => Ok l
  | VStr s => Ok (map (fun c => VStr (String c EmptyString)) (list_ascii_of_string s))
  | VDict d => Ok (map (fun kv => VStr (fst kv)) d)
  | _ => Err TypeError
  end.

(** [os.path.join(a, b)] (posixpath) *)
Definition os_path_join (a b : string) : string :=
  if String.prefix "/" b then b
  else if String.eqb a "" then b
  else if String.eqb (String.substring (String.length a - 1) 1 a) "/"
       then a +:+ b
       else a +:+ "/" +:+ b.

End Py.
Export Py.

(** ** Query-string decoding used by the descrambler *)

Module Urllib.

(** Modelled from the spec: [pytube.compat] is not among the sources; it
    re-exports the standard library's [unquote] and [parse_qsl], which the
    design document describes as URL-decoding ("percent-decoded") the
    key/value pairs of an ampersand-joined segment. [unquote] replaces
    every [%XX] with two hexadecimal digits by the byte it denotes and
    leaves any other [%] in place. *)
Definition hex_digit (c : ascii) : option nat :=
  let n := nat_of_ascii c in
  if ((48 <=? n) && (n <=? 57))%nat then Some (n - 48)%nat
  else if ((65 <=? n) && (n <=? 70))%nat then Some (n - 55)%nat
  else if ((97 <=? n) && (n <=? 102))%nat then Some (n - 87)%nat
  else None.

Fixpoint unquote (s : string) : string :=
  match s with
  | EmptyString => EmptyString
  | String c rest =>
      if Ascii.eqb c "%" then
        match rest with
        | String h (String l t) =>
            match hex_digit h, hex_digit l with
            | Some a, Some b => String (ascii_of_nat (16 * a + b)) (unquote t)
            | _, _ => String c (unquote rest)
            end
        | _ => String c (unquote rest)
        end
      else String c (unquote rest)
  end.

(** One [name=value] field of a query string, with the defaults
    [keep_blank_values=False] and [strict_parsing=False]: a field without
    [=] or with an empty value is dropped. *)
Definition parse_field (name_value : string) : list (string * string) :=
  if String.eqb name_value "" then []
  else match str_split_once "=" name_value with
       | [name; value] =>
           if String.eqb value "" then []
           else [(unquote (str_replace "+" " " name),
                  unquote (str_replace "+" " " value))]
       | _ => []
       end.

Definition parse_qsl (qs : string) : list (string * string) :=
  flat_map parse_field (str_split "&" qs).

End Urllib.

(** ** pytube/mixins.py *)

Module Mixins.

Section Signature.

(** [cipher.get_signature(js, s)], the external signature solver. It is
    handed the script and the scrambled token only. *)
Variable get_signature : string -> PyVal -> Exc string.

(** The body of the [for] loop of [apply_signature] on one entry: the
    entry as the iteration leaves it, or the exception it raises (the
    entry is then untouched). *)
Definition sign_entry (js : string) (stream : PyVal) : Exc PyVal :=
  (url <- py_getitem stream "url" ;;
   signed <- py_contains "signature=" url ;;
   if (signed : bool) then Ok stream
   else
     s <- py_getitem stream "s" ;;
     signature <- get_signature js s ;;
     (* logger.debug(..., stream['itag'], ...) evaluates its arguments *)
     _ <- py_getitem stream "itag" ;;
     prefix <- py_add_str url "&signature=" ;;
     py_setitem stream "url" (VStr (prefix +:+ signature)))%exc.

(** The loop over the manifest, in input order; it stops at the first
    entry that raises, leaving that entry and the later ones as they
    were and the earlier ones mutated. *)
Fixpoint sign_entries (js : string) (manifest : list PyVal)
  : Exc unit * list PyVal :=
  match manifest with
  | [] => (Ok tt, [])
  | stream :: rest =>
      match sign_entry js stream with
      | Err e => (Err e, stream :: rest)
      | Ok stream' =>
          let '(r, rest') := sign_entries js rest in
          (r, stream' :: rest')
      end
  end.

(** [apply_signature(config_args, fmt, js)]: the outcome and the
    configuration after the call. *)
Definition apply_signature (config_args : PyDict) (fmt js : string)
  : Exc unit * PyDict :=
  match dict_get config_args fmt with
  | None => (Err (KeyError fmt), config_args)
  | Some stream_manifest =>
      match py_iter stream_manifest with
      | Err e => (Err e, config_args)
      | Ok items =>
          let '(r, items') := sign_entries js items in
          (r, match stream_manifest with
              | VList _ => dict_set config_args fmt (VList items')
              | _ => config_args
              end)
      end
  end.

End Signature.

Section Descrambler.

(** [pytube.compat.parse_qsl] and [pytube.compat.unquote]. *)
Variable parse_qsl : string -> list (string * string).
Variable unquote : string -> string.

(** [{k: unquote(v) for k, v in parse_qsl(i)}] *)
Definition descramble_segment (i : string) : PyVal :=
  VDict (dict_of_pairs
           (map (fun kv => (fst kv, VStr (unquote (snd kv)))) (parse_qsl i))).

(** [apply_descrambler(stream_data, key)] *)
Definition apply_descrambler (stream_data : PyDict) (key : string)
  : Exc unit * PyDict :=
  match dict_get stream_data key with
  | None => (Err (KeyError key), stream_data)
  | Some (VStr encoded) =>
      (Ok tt,
       dict_set stream_data key
         (VList (map descramble_segment (str_split "," encoded))))
  | Some _ => (Err (AttributeError "split"), stream_data)
  end.

End Descrambler.

(** An entry whose url already carries the resolved-signature marker. *)
Definition already_signed (stream : PyVal) : Prop :=
  exists url, py_getitem stream "url" = Ok url /\
              py_contains "signature=" url = Ok true.

End Mixins.

(** ** The itag profile table *)

Module Itags.

Record FormatProfile : Type := {
  is_dash : PyVal;
  abr : PyVal;
  fps : PyVal;
  resolution : PyVal;
  is_3d : PyVal;
  is_hdr : PyVal;
  is_live : PyVal
}.

(** Modelled from the spec: [pytube/itags.py] is not among the sources.
    The design document has the quality attributes "looked up by itag from
    a static table; an unknown itag is a construction-time failure"
    ([UnknownFormatError], "itag absent from the profile table"). The
    table itself is a parameter. *)
Definition get_format_profile (table : gmap Z FormatProfile) (itag : Z)
  : Exc FormatProfile :=
  match table !! itag with
  | Some profile => Ok profile
  | None => Err (UnknownFormatError itag)
  end.

End Itags.

(** ** pytube/streams.py *)

Module Streams.

Abbreviation bytes := (list Byte.byte).

(** The attributes of a [Stream] object. [_filesize] is the only one
    assigned after construction. *)
Record Stream : Type := {
  url : PyVal;
  itag : Z;
  mime_type : string;
  codecs : list string;
  type : string;
  subtype : string;
  video_codec : option string;
  audio_codec : option string;
  _filesize : option Z;
  is_dash : PyVal;
  abr : PyVal;
  fps : PyVal;
  resolution : PyVal;
  is_3d : PyVal;
  is_hdr : PyVal;
  is_live : PyVal;
  player_config_args : PyDict
}.

(** [self._filesize = v] *)
Definition set_filesize (self : Stream) (v : option Z) : Stream :=
  {| url := url self; itag := itag self; mime_type := mime_type self;
     codecs := codecs self; type := type self; subtype := subtype self;
     video_codec := video_codec self; audio_codec := audio_codec self;
     _filesize := v;
     is_dash := is_dash self; abr := abr self; fps := fps self;
     resolution := resolution self; is_3d := is_3d self;
     is_hdr := is_hdr self; is_live := is_live self;
     player_config_args := player_config_args self |}.

(** *** Derived attributes *)

(** [bool(len(self.codecs) % 2)] *)
Definition is_adaptive (self : Stream) : bool :=
  negb (Nat.eqb (length (codecs self) mod 2) 0).

Definition is_progressive (self : Stream) : bool :=
  negb (is_adaptive self).

Definition includes_audio_track (self : Stream) : bool :=
  is_progressive self || String.eqb (type self) "audio".

Definition includes_video_track (self : Stream) : bool :=
  is_progressive self || String.eqb (type self) "video".

(** [parse_codecs]: [video, audio = self.codecs] needs exactly two
    entries, [self.codecs[0]] at least one. *)
Definition parse_codecs (self : Stream)
  : Exc (option string * option string) :=
  if negb (is_adaptive self) then
    match codecs self with
    | [video; audio] => Ok (Some video, Some audio)
    | _ => Err ValueError
    end
  else if includes_video_track self then
    match codecs self with
    | video :: _ => Ok (Some video, None)
    | [] => Err IndexError
    end
  else if includes_audio_track self then
    match codecs self with
    | audio :: _ => Ok (None, Some audio)
    | [] => Err IndexError
    end
  else Ok (None, None).

(** [title]: [a or b or c] evaluates [b] only when [a] is falsy. *)
Definition title_of (player_config_args : PyDict) : Exc PyVal :=
  let args := VDict player_config_args in
  (a <- py_get args "title" VNone ;;
   if truthy a then Ok a
   else
     player_response <- py_get args "player_response" (VDict []) ;;
     video_details <- py_get player_response "videoDetails" (VDict []) ;;
     b <- py_get video_details "title" VNone ;;
     if truthy b then Ok b
     else Ok (VStr "Unknown YouTube Video Title"))%exc.

Definition title (self : Stream) : Exc PyVal :=
  title_of (player_config_args self).

(** *** Construction *)

Section Init.

(** [int(x)], [extract.mime_type_codec] and the profile table. *)
Variable py_int : PyVal -> Exc Z.
Variable mime_type_codec : PyVal -> Exc (string * list string).
Variable itag_table : gmap Z Itags.FormatProfile.

(** [Stream.__init__(stream, player_config_args, monostate)]: the
    constructed object, or the exception that leaves none. The shared
    monostate lives in the program state below. *)
Definition __init__ (stream : PyDict) (config : PyDict) : Exc Stream :=
  (url_ <- py_getitem (VDict stream) "url" ;;
   itag_raw <- py_getitem (VDict stream) "itag" ;;
   itag_ <- py_int itag_raw ;;
   type_raw <- py_getitem (VDict stream) "type" ;;
   mc <- mime_type_codec type_raw ;;
   match str_split "/" (fst mc) with
   | [type_; subtype_] =>
       let self0 :=
         {| url := url_; itag := itag_; mime_type := fst mc;
            codecs := snd mc; type := type_; subtype := subtype_;
            video_codec := None; audio_codec := None; _filesize := None;
            is_dash := VNone; abr := VNone; fps := VNone;
            resolution := VNone; is_3d := VNone; is_hdr := VNone;
            is_live := VNone; player_config_args := [] |} in
       va <- parse_codecs self0 ;;
       itag_profile <- Itags.get_format_profile itag_table itag_ ;;
       Ok {| url := url_; itag := itag_; mime_type := fst mc;
             codecs := snd mc; type := type_; subtype := subtype_;
             video_codec := fst va; audio_codec := snd va;
             _filesize := None;
             is_dash := Itags.is_dash itag_profile;
             abr := Itags.abr itag_profile;
             fps := Itags.fps itag_profile;
             resolution := Itags.resolution itag_profile;
             is_3d := Itags.is_3d itag_profile;
             is_hdr := Itags.is_hdr itag_profile;
             is_live := Itags.is_live itag_profile;
             player_config_args := config |}
   | _ => Err ValueError
   end)%exc.

End Init.

(** *** The shared observer registry *)

(** What a callback is handed as its file handle: the file opened at a
    path, or the n-th in-memory buffer allocated. *)
Inductive Sink : Type :=
| FileSink (path : string)
| BufferSink (id : nat).

Module Monostate.

(** The callbacks registered by the caller. A callback acts on the
    caller's own state [U] and may raise. *)
Record t (U : Type) : Type := {
  on_progress : option (Stream -> bytes -> Sink -> Z -> U -> Exc U);
  on_complete : option (Stream -> Sink -> U -> Exc U)
}.
Arguments on_progress {U} _.
Arguments on_complete {U} _.

End Monostate.

(** *** Program state and effects *)

(** What the pipeline does that an observer of the run can see, in order. *)
Inductive Event : Type :=
| HeadersRequest (url : PyVal)
| StreamRequest (url : PyVal)
| SinkWrite (sink : Sink) (chunk : bytes)
| ProgressCall (chunk : bytes) (sink : Sink) (bytes_remaining : Z)
| CompleteCall (sink : Sink).

Record State (U : Type) : Type := {
  this : Stream;                         (* the object [self] *)
  monostate : Monostate.t U;             (* [self._monostate], shared *)
  files : gmap string bytes;             (* regular files by path *)
  buffers : list bytes;                  (* [io.BytesIO] objects allocated *)
  trace : list Event;
  observer : U                           (* the callbacks' own state *)
}.
Arguments this {U} _.
Arguments monostate {U} _.
Arguments files {U} _.
Arguments buffers {U} _.
Arguments trace {U} _.
Arguments observer {U} _.

Section Engine.

Context {U : Type}.

Abbreviation St := (State U).

Definition with_this (st : St) (s : Stream) : St :=
  {| this := s; monostate := monostate st; files := files st;
     buffers := buffers st; trace := trace st; observer := observer st |}.

Definition with_files (st : St) (fs : gmap string bytes) : St :=
  {| this := this st; monostate := monostate st; files := fs;
     buffers := buffers st; trace := trace st; observer := observer st |}.

Definition with_buffers (st : St) (bs : list bytes) : St :=
  {| this := this st; monostate := monostate st; files := files st;
     buffers := bs; trace := trace st; observer := observer st |}.

Definition with_observer (st : St) (u : U) : St :=
  {| this := this st; monostate := monostate st; files := files st;
     buffers := buffers st; trace := trace st; observer := u |}.

Definition log (ev : Event) (st : St) : St :=
  {| this := this st; monostate := monostate st; files := files st;
     buffers := buffers st; trace := trace st ++ [ev];
     observer := observer st |}.

(** A computation that may mutate the state and may raise; the state
    reached is returned in both cases. *)
Definition M (A : Type) : Type := St -> Exc A * St.

Definition ret {A} (a : A) : M A := fun st => (Ok a, st).

Definition raise {A} (e : PyErr) : M A := fun st => (Err e, st).

Definition bind {A B} (m : M A) (k : A -> M B) : M B :=
  fun st =>
    match m st with
    | (Ok a, st') => k a st'
    | (Err e, st') => (Err e, st')
    end.

Definition lift {A} (r : Exc A) : M A := fun st => (r, st).

Definition gets {A} (f : St -> A) : M A := fun st => (Ok (f st), st).

Definition modify (f : St -> St) : M unit := fun st => (Ok tt, f st).

End Engine.

Declare Scope run_scope.
Delimit Scope run_scope with run.
Notation "x <- m ;; k" := (bind m (fun x => k))
  (at level 100, m at next level, right associativity) : run_scope.

(** *** The download pipeline *)

Section Pipeline.

Context {U : Type}.

(** The external collaborators: [int(x)], [request.headers],
    [request.stream] (the chunks it yields, then the failure that ends
    the sequence early, if any), [helpers.safe_filename] and
    [helpers.target_directory]. The file store holds regular files
    only: creating a directory leaves it as it is, and opening a path
    for writing always succeeds. *)
Variable py_int : PyVal -> Exc Z.
Variable request_headers : PyVal -> Exc PyVal.
Variable request_stream : PyVal -> list bytes * option PyErr.
Variable safe_filename : PyVal -> Exc string.
Variable target_directory : option string -> Exc string.

Abbreviation St := (State U).

(** [filesize]: the cached value, or one headers request whose
    content-length is stored. *)
Definition filesize : M (U:=U) Z :=
  (self <- gets this ;;
   match _filesize self with
   | Some n => ret n
   | None =>
       _ <- modify (log (HeadersRequest (url self))) ;;
       headers <- lift (request_headers (url self)) ;;
       length_raw <- lift (py_getitem headers "content-length") ;;
       n <- lift (py_int length_raw) ;;
       _ <- modify (fun st => with_this st (set_filesize (this st) (Some n))) ;;
       ret n
   end)%run.

(** [default_filename] *)
Definition default_filename (self : Stream) : Exc string :=
  (t <- title self ;;
   filename <- safe_filename t ;;
   Ok (filename +:+ "." +:+ subtype self))%exc.

(** [if x:] on an optional string *)
Definition given (x : option string) : option string :=
  match x with
  | Some s => if String.eqb s "" then None else Some s
  | None => None
  end.

(** Lines 208 to 216 of [download]: the path the file is written to. *)
Definition file_path_of (self : Stream)
           (output_path filename filename_prefix : option string)
  : Exc string :=
  (filename1 <-
     match given filename with
     | Some f =>
         safe <- safe_filename (VStr f) ;;
         Ok (safe +:+ "." +:+ subtype self)
     | None => default_filename self
     end ;;
   filename2 <-
     match given filename_prefix with
     | Some p =>
         safe <- safe_filename (VStr p) ;;
         Ok (safe +:+ filename1)
     | None => Ok filename1
     end ;;
   dir <- target_directory output_path ;;
   Ok (os_path_join dir filename2))%exc.

(** [file_handler.write(chunk)] *)
Definition sink_write (sink : Sink) (chunk : bytes) (st : St) : St :=
  match sink with
  | FileSink path =>
      with_files st (<[path := default [] (files st !! path) ++ chunk]> (files st))
  | BufferSink id =>
      with_buffers st (alter (fun b => b ++ chunk) id (buffers st))
  end.

(** Calling a registered callback: the call is recorded, the callback
    runs on the caller's state, and what it raises propagates. *)
Definition call (ev : Event) (f : U -> Exc U) : M (U:=U) unit :=
  (_ <- modify (log ev) ;;
   u <- gets observer ;;
   u' <- lift (f u) ;;
   modify (fun st => with_observer st u'))%run.

(** [on_progress(chunk, file_handler, bytes_remaining)] *)
Definition on_progress (chunk : bytes) (file_handler : Sink)
           (bytes_remaining : Z) : M (U:=U) unit :=
  (_ <- modify (fun st => log (SinkWrite file_handler chunk)
                            (sink_write file_handler chunk st)) ;;
   cb <- gets (fun st => Monostate.on_progress (monostate st)) ;;
   match cb with
   | Some f =>
       self <- gets this ;;
       call (ProgressCall chunk file_handler bytes_remaining)
            (f self chunk file_handler bytes_remaining)
   | None => ret tt
   end)%run.

(** [on_complete(file_handle)] *)
Definition on_complete (file_handle : Sink) : M (U:=U) unit :=
  (cb <- gets (fun st => Monostate.on_complete (monostate st)) ;;
   match cb with
   | Some f =>
       self <- gets this ;;
       call (CompleteCall file_handle) (f self file_handle)
   | None => ret tt
   end)%run.

(** The [for chunk in request.stream(self.url)] loop over the chunks
    the transport yields; its result is the final [bytes_remaining]. *)
Fixpoint transfer (sink : Sink) (chunks : list bytes) (bytes_remaining : Z)
  : M (U:=U) Z :=
  match chunks with
  | [] => ret bytes_remaining
  | chunk :: rest =>
      let bytes_remaining := bytes_remaining - Z.of_nat (length chunk) in
      (_ <- on_progress chunk sink bytes_remaining ;;
       transfer sink rest bytes_remaining)%run
  end.

(** The loop together with the transport: the request is issued, the
    chunks are consumed, and a transport failure ends the loop by
    raising after the chunks that did arrive. *)
Definition stream_into (sink : Sink) (bytes_remaining : Z) : M (U:=U) Z :=
  (self <- gets this ;;
   _ <- modify (log (StreamRequest (url self))) ;;
   let '(chunks, failure) := request_stream (url self) in
   remaining <- transfer sink chunks bytes_remaining ;;
   match failure with
   | Some e => raise e
   | None => ret remaining
   end)%run.

(** [download(output_path, filename, filename_prefix, skip_existing)] *)
Definition download (output_path filename filename_prefix : option string)
           (skip_existing : bool) : M (U:=U) string :=
  (self <- gets this ;;
   file_path <- lift (file_path_of self output_path filename filename_prefix) ;;
   existing <- gets (fun st => files st !! file_path) ;;
   skip <-
     match skip_existing, existing with
     | true, Some content =>
         size <- filesize ;;
         ret (Z.of_nat (length content) =? size)
     | _, _ => ret false
     end ;;
   if (skip : bool) then ret file_path
   else
     bytes_remaining <- filesize ;;
     _ <- filesize ;;                    (* argument of logger.debug *)
     _ <- modify (fun st => with_files st (<[file_path := []]> (files st))) ;;
     _ <- stream_into (FileSink file_path) bytes_remaining ;;
     _ <- on_complete (FileSink file_path) ;;
     ret file_path)%run.

(** [stream_to_buffer()] *)
Definition stream_to_buffer : M (U:=U) Sink :=
  (id <- gets (fun st => length (buffers st)) ;;
   _ <- modify (fun st => with_buffers st (buffers st ++ [[]])) ;;
   bytes_remaining <- filesize ;;
   _ <- filesize ;;                      (* argument of logger.debug *)
   _ <- stream_into (BufferSink id) bytes_remaining ;;
   _ <- on_complete (BufferSink id) ;;
   ret (BufferSink id))%run.

(** The remote content-length of a url, as [filesize] reads it. *)
Definition content_length (u : PyVal) : Exc Z :=
  (headers <- request_headers u ;;
   length_raw <- py_getitem headers "content-length" ;;
   py_int length_raw)%exc.

End Pipeline.

End Streams.

(** ** Specification-side definitions *)

Module Spec.

Import Streams.

(** Total length of a chunk sequence. *)
Definition sum_len (chunks : list bytes) : Z :=
  fold_right (fun c acc => Z.of_nat (length c) + acc) 0 chunks.

Section Observed.

Context {U : Type}.
Variable m : Monostate.t U.

(** What chunk number [i] (from 0) of a transfer of total size [T]
    shows: the write, then the progress call with
    [T - (len c_0 + ... + len c_i)] if a callback is registered. *)
Definition chunk_events (sink : Sink) (T : Z) (chunks : list bytes)
           (i : nat) (c : bytes) : list Event :=
  SinkWrite sink c ::
  match Monostate.on_progress m with
  | Some _ => [ProgressCall c sink (T - sum_len (take (S i) chunks))]
  | None => []
  end.

Definition transfer_events (sink : Sink) (T : Z) (chunks : list bytes)
  : list Event :=
  concat (imap (chunk_events sink T chunks) chunks).

Definition complete_events (sink : Sink) : list Event :=
  match Monostate.on_complete m with
  | Some _ => [CompleteCall sink]
  | None => []
  end.

(** Registered callbacks that return normally on every call. *)
Definition callbacks_return : Prop :=
  (forall f, Monostate.on_progress m = Some f ->
             forall s c k r u, exists u', f s c k r u = Ok u') /\
  (forall g, Monostate.on_complete m = Some g ->
             forall s k u, exists u', g s k u = Ok u').

End Observed.

(** The headers request a [filesize] access issues: one when the cache
    is empty, none otherwise. *)
Definition headers_events (self : Stream) : list Event :=
  match _filesize self with
  | Some _ => []
  | None => [HeadersRequest (url self)]
  end.

Definition is_headers_request (ev : Event) : bool :=
  match ev with
  | HeadersRequest _ => true
  | _ => false
  end.

Definition is_complete_call (ev : Event) : bool :=
  match ev with
  | CompleteCall _ => true
  | _ => false
  end.

(** The bytes held by a sink. *)
Definition sink_content {U} (st : State U) (sink : Sink) : option bytes :=
  match sink with
  | FileSink path => files st !! path
  | BufferSink id => buffers st !! id
  end.

(** The operations of a descriptor. *)
Inductive Op : Type :=
| OpFilesize
| OpTitle
| OpDownload (output_path filename filename_prefix : option string)
             (skip_existing : bool)
| OpStreamToBuffer
| OpOnProgress (chunk : bytes) (sink : Sink) (bytes_remaining : Z)
| OpOnComplete (sink : Sink).

Section Ops.

Context {U : Type}.
Variable py_int : PyVal -> Exc Z.
Variable request_headers : PyVal -> Exc PyVal.
Variable request_stream : PyVal -> list bytes * option PyErr.
Variable safe_filename : PyVal -> Exc string.
Variable target_directory : option string -> Exc string.

(** The state an operation leaves, whether it returns or raises. *)
Definition run_op (op : Op) (st : State U) : State U :=
  match op with
  | OpFilesize => snd (filesize py_int request_headers st)
  | OpTitle => st
  | OpDownload o f p k =>
      snd (download py_int request_headers request_stream safe_filename
                    target_directory o f p k st)
  | OpStreamToBuffer =>
      snd (stream_to_buffer py_int request_headers request_stream st)
  | OpOnProgress c k r => snd (on_progress c k r st)
  | OpOnComplete k => snd (on_complete k st)
  end.

Definition run_ops (ops : list Op) (st : State U) : State U :=
  fold_left (fun s op => run_op op s) ops st.

End Ops.

(** The title lookup as the design document words it: the explicit
    title if present, else the nested video-details title if present,
    else the placeholder. *)
Definition title_as_specified (cfg : PyDict) : PyVal :=
  match dict_get cfg "title" with
  | Some t => t
  | None =>
      match dict_get cfg "player_response" with
      | Some (VDict pr) =>
          match dict_get pr "videoDetails" with
          | Some (VDict vd) =>
              match dict_get vd "title" with
              | Some t => t
              | None => VStr "Unknown YouTube Video Title"
              end
          | _ => VStr "Unknown YouTube Video Title"
          end
      | _ => VStr "Unknown YouTube Video Title"
      end
  end.

(** The nested [player_response.videoDetails.title], when the two
    levels are mappings (an absent level counts as an empty mapping). *)
Definition nested_title (cfg : PyDict) : option PyVal :=
  match dict_get cfg "player_response" with
  | Some (VDict pr) =>
      match dict_get pr "videoDetails" with
      | Some (VDict vd) => Some (default VNone (dict_get vd "title"))
      | Some _ => None
      | None => Some VNone
      end
  | Some _ => None
  | None => Some VNone
  end.

(** The state a successful [filesize] access leaves. *)
Definition after_filesize {U} (st : State U) (T : Z) : State U :=
  {| this := set_filesize (this st) (Some T); monostate := monostate st;
     files := files st; buffers := buffers st;
     trace := trace st ++ headers_events (this st);
     observer := observer st |}.

(** The size a [filesize] access reports: the cached one, or the remote
    content-length when nothing is cached yet. *)
Definition has_size (py_int : PyVal -> Exc Z)
           (request_headers : PyVal -> Exc PyVal)
           (self : Stream) (T : Z) : Prop :=
  _filesize self = Some T \/
  (_filesize self = None /\
   content_length py_int request_headers (url self) = Ok T).

(** A filled cache together with the headers requests issued so far, and
    the computations that keep both. *)
Definition cache_inv {U} (n : Z) (requests : list Event) (st : State U)
  : Prop :=
  _filesize (this st) = Some n /\
  List.filter is_headers_request (trace st) = requests.

Definition keeps_cache {U A} (m : M (U:=U) A) : Prop :=
  forall st n requests,
    cache_inv n requests st -> cache_inv n requests (snd (m st)).

(** What the callbacks are handed in a transfer of total size [T]: each
    chunk with [T - (len c_0 + ... + len c_i)]. *)
Definition progress_args (T : Z) (chunks : list bytes) : list (bytes * Z) :=
  imap (fun i c => (c, T - sum_len (take (S i) chunks))) chunks.

(** The callbacks' own state as the calls of a transfer leave it: the
    progress callback applied to each chunk in turn, then the completion
    callback; a callback that is not registered leaves the state as it
    is, one that raises ends the run. *)
Definition progress_step {U} (m : Monostate.t U) (self : Stream) (sink : Sink)
           (acc : Exc U) (a : bytes * Z) : Exc U :=
  exc_bind acc
    (fun u => match Monostate.on_progress m with
              | Some f => f self (fst a) sink (snd a) u
              | None => Ok u
              end).

Definition run_progress {U} (m : Monostate.t U) (self : Stream) (sink : Sink)
           (args : list (bytes * Z)) (u : U) : Exc U :=
  fold_left (progress_step m self sink) args (Ok u).



End Spec.

(** ** A concrete environment, for the examples *)

Module Fixtures.

Import Mixins Streams Spec.

(** [int(x)] on an int or on a string of decimal digits. *)
Definition digit_value (c : ascii) : option Z :=
  let n := nat_of_ascii c in
  if ((48 <=? n) && (n <=? 57))%nat then Some (Z.of_nat (n - 48)) else None.

Fixpoint digits_value (acc : Z) (s : string) : option Z :=
  match s with
  | EmptyString => Some acc
  | String c rest =>
      match digit_value c with
      | Some d => digits_value (10 * acc + d) rest
      | None => None
      end
  end.

Definition int_of (v : PyVal) : Exc Z :=
  match v with
  | VInt n => Ok n
  | VStr s =>
      if String.eqb s "" then Err ValueError
      else match digits_value 0 s with
           | Some n => Ok n
           | None => Err ValueError
           end
  | _ => Err TypeError
  end.

(** A stand-in for [extract.mime_type_codec] on the simplified field
    syntax [major/minor;codec,codec]. *)
Definition mime_of (v : PyVal) : Exc (string * list string) :=
  match v with
  | VStr s =>
      match str_split ";" s with
      | [mime; cs] => Ok (mime, str_split "," cs)
      | _ => Err (Raised "RegexMatchError" "mime_type_codec")
      end
  | _ => Err TypeError
  end.

Definition profile_22 : Itags.FormatProfile :=
  {| Itags.is_dash := VBool false; Itags.abr := VStr "192kbps";
     Itags.fps := VInt 30; Itags.resolution := VStr "720p";
     Itags.is_3d := VBool false; Itags.is_hdr := VBool false;
     Itags.is_live := VBool false |}.

Definition table : gmap Z Itags.FormatProfile := {[ 22 := profile_22 ]}.

Definition record_22 : PyDict :=
  [("itag", VStr "22"); ("url", VStr "https://host/v?id=1&signature=AB");
   ("type", VStr "video/webm;vp8,vorbis")].

Definition record_999 : PyDict :=
  [("itag", VStr "999"); ("url", VStr "https://host/v?id=1&signature=AB");
   ("type", VStr "video/webm;vp8,vorbis")].

Definition config : PyDict := [("title", VStr "My Video")].

(** The descriptor [__init__] builds from [record_22]. *)
Definition stream_22 : Stream :=
  {| url := VStr "https://host/v?id=1&signature=AB"; itag := 22;
     mime_type := "video/webm"; codecs := ["vp8"; "vorbis"];
     type := "video"; subtype := "webm";
     video_codec := Some "vp8"; audio_codec := Some "vorbis";
     _filesize := None;
     is_dash := VBool false; abr := VStr "192kbps"; fps := VInt 30;
     resolution := VStr "720p"; is_3d := VBool false;
     is_hdr := VBool false; is_live := VBool false;
     player_config_args := config |}.

(** [stream_22] built with another player configuration. *)
Definition stream_with_config (cfg : PyDict) : Stream :=
  {| url := url stream_22; itag := itag stream_22;
     mime_type := mime_type stream_22; codecs := codecs stream_22;
     type := type stream_22; subtype := subtype stream_22;
     video_codec := video_codec stream_22;
     audio_codec := audio_codec stream_22; _filesize := None;
     is_dash := is_dash stream_22; abr := abr stream_22;
     fps := fps stream_22; resolution := resolution stream_22;
     is_3d := is_3d stream_22; is_hdr := is_hdr stream_22;
     is_live := is_live stream_22; player_config_args := cfg |}.

(** A descriptor with a major type that is neither video nor audio. *)
Definition stream_text : Stream :=
  {| url := VStr "https://host/t"; itag := 22;
     mime_type := "text/vtt"; codecs := ["wvtt"];
     type := "text"; subtype := "vtt";
     video_codec := None; audio_codec := None;
     _filesize := None;
     is_dash := VBool false; abr := VNone; fps := VNone;
     resolution := VNone; is_3d := VBool false;
     is_hdr := VBool false; is_live := VBool false;
     player_config_args := config |}.

(** A transport serving six bytes in two chunks. *)
Definition chunk_a : bytes := [Byte.x00; Byte.x01].
Definition chunk_b : bytes := [Byte.x02; Byte.x03; Byte.x04; Byte.x05].

Definition headers_of (_ : PyVal) : Exc PyVal :=
  Ok (VDict [("content-length", VStr "6")]).

Definition stream_of (_ : PyVal) : list bytes * option PyErr :=
  ([chunk_a; chunk_b], None).

Definition safe_name (v : PyVal) : Exc string :=
  match v with
  | VStr s => Ok s
  | _ => Err TypeError
  end.

Definition directory_of (output_path : option string) : Exc string :=
  Ok (default "/tmp" output_path).

(** Callbacks that count their calls. *)
Definition counting : Monostate.t nat :=
  {| Monostate.on_progress := Some (fun _ _ _ _ u => Ok (S u));
     Monostate.on_complete := Some (fun _ _ u => Ok (100 + u)%nat) |}.

Definition state_0 : State nat :=
  {| this := stream_22; monostate := counting; files := ∅; buffers := [];
     trace := []; observer := 0%nat |}.

(** The same, with a complete copy of the file already on disk. *)
Definition state_on_disk : State nat :=
  {| this := stream_22; monostate := counting;
     files := {[ "/tmp/My Video.webm" := chunk_a ++ chunk_b ]};
     buffers := []; trace := []; observer := 0%nat |}.

(** A solver that cannot locate the transform, and one that can. *)
Definition failing_solver (_ : string) (_ : PyVal) : Exc string :=
  Err (Raised "RegexMatchError" "get_signature").

Definition working_solver (_ : string) (token : PyVal) : Exc string :=
  match token with
  | VStr s => Ok ("SIG" +:+ s)
  | _ => Err TypeError
  end.

Definition scrambled_entry (itag_ : string) : PyVal :=
  VDict [("itag", VStr itag_); ("url", VStr "https://host/v?id=1");
         ("s", VStr "TOKEN")].

Definition signed_entry : PyVal :=
  VDict [("itag", VStr "18"); ("url", VStr "https://host/v?id=0&signature=AB")].

Definition manifest_of (entries : list PyVal) : PyDict :=
  [("title", VStr "My Video"); ("adaptive_fmts", VList entries)].

End Fixtures.

(** ** Further specification-side definitions *)

Module Frames.

Import Mixins Streams Spec.

(** A property of the two stores that a computation keeps, whatever its
    outcome. *)
Definition keeps_stores {U A} (P : gmap string bytes -> list bytes -> Prop)
           (m : M (U:=U) A) : Prop :=
  forall st, P (files st) (buffers st) ->
             P (files (snd (m st))) (buffers (snd (m st))).

(** Writing to this sink keeps the property. *)
Definition write_keeps {U} (P : gmap string bytes -> list bytes -> Prop)
           (sink : Sink) : Prop :=
  forall (st : State U) chunk,
    P (files st) (buffers st) ->
    P (files (sink_write sink chunk st)) (buffers (sink_write sink chunk st)).

(** A record as the descrambler builds them: a dict of strings. *)
Definition str_record (stream : PyVal) : Prop :=
  exists d, stream = VDict d /\ Forall (fun kv => exists s, snd kv = VStr s) d.

(** The ways resolving a descrambled family can fail: a field is
    missing, or the solver raised on a string token. *)
Definition resolution_failure (solver : string -> PyVal -> Exc string)
           (js : string) (e : PyErr) : Prop :=
  e = KeyError "url" \/ e = KeyError "s" \/ e = KeyError "itag" \/
  exists token, solver js (VStr token) = Err e.

End Frames.

Module MoreFixtures.

Import Streams Spec Fixtures.

(** A record whose type field lists four codecs. *)
Definition record_four : PyDict :=
  [("itag", VStr "22"); ("url", VStr "https://host/v?id=1&signature=AB");
   ("type", VStr "video/webm;vp8,vorbis,opus,aac")].

(** A record whose type field lists three codecs. *)
Definition record_three : PyDict :=
  [("itag", VStr "22"); ("url", VStr "https://host/v?id=1&signature=AB");
   ("type", VStr "video/webm;vp8,vorbis,opus")].

(** A headers request that fails, and a stream cut after one chunk. *)
Definition headers_down (_ : PyVal) : Exc PyVal :=
  Err (Raised "URLError" "unreachable").

Definition stream_cut (_ : PyVal) : list bytes * option PyErr :=
  ([chunk_a], Some (Raised "IncompleteRead" "connection reset")).

(** A progress callback that gives up on a chunk of four bytes. *)
Definition picky : Monostate.t nat :=
  {| Monostate.on_progress :=
       Some (fun _ chunk _ _ u =>
               if Nat.eqb (length chunk) 4
               then Err (Raised "KeyboardInterrupt" "interrupted")
               else Ok (S u));
     Monostate.on_complete := Some (fun _ _ u => Ok (100 + u)%nat) |}.

Definition state_picky : State nat :=
  {| this := stream_22; monostate := picky; files := ∅; buffers := [];
     trace := []; observer := 0%nat |}.

End MoreFixtures.

(** * Properties *)

Import Mixins Streams Spec Fixtures.

(** ** Facts about the built-in operations *)

Lemma append_cons (x : ascii) (a b : string) :
  String x a +:+ b = String x (a +:+ b).
Proof. reflexivity. Qed.

Lemma append_nil (b : string) : "" +:+ b = b.
Proof. reflexivity. Qed.

Lemma append_assoc (a b c : string) : (a +:+ b) +:+ c = a +:+ (b +:+ c).
Proof.
  induction a as [|x a IH]; [reflexivity|].
  rewrite !append_cons. f_equal. exact IH.
Qed.

Lemma prefix_append (n b : string) : String.prefix n (n +:+ b) = true.
Proof.
  induction n as [|x n IH].
  - rewrite append_nil. now destruct b.
  - rewrite append_cons. simpl.
    destruct (ascii_dec x x) as [_|Hne]; [exact IH | now elim Hne].
Qed.

Lemma str_contains_prefix (n h : string) :
  String.prefix n h = true -> str_contains n h = true.
Proof. intros H. destruct h; cbn [str_contains]; rewrite H; reflexivity. Qed.

Lemma str_contains_append (n a b : string) :
  str_contains n (a +:+ (n +:+ b)) = true.
Proof.
  induction a as [|x a IH].
  - rewrite append_nil. apply str_contains_prefix, prefix_append.
  - rewrite append_cons. cbn [str_contains]. rewrite IH. apply orb_true_r.
Qed.

Lemma dict_get_set_eq {V} (d : list (string * V)) k v :
  dict_get (dict_set d k v) k = Some v.
Proof.
  induction d as [|[k' v'] d IH]; simpl.
  - now rewrite String.eqb_refl.
  - destruct (String.eqb k' k) eqn:E; simpl; now rewrite E.
Qed.

Lemma dict_set_get_id {V} (d : list (string * V)) k v :
  dict_get d k = Some v -> dict_set d k v = d.
Proof.
  induction d as [|[k' v'] d IH]; simpl; [discriminate|].
  destruct (String.eqb k' k) eqn:E.
  - now intros [= ->].
  - intros H. now rewrite IH.
Qed.

Lemma dict_set_set {V} (d : list (string * V)) k v w :
  dict_set (dict_set d k v) k w = dict_set d k w.
Proof.
  induction d as [|[k' v'] d IH]; simpl.
  - now rewrite String.eqb_refl.
  - destruct (String.eqb k' k) eqn:E; simpl; rewrite E; [reflexivity | now rewrite IH].
Qed.

(** ** Signature resolution *)

Section SignatureFacts.

Variable solver : string -> PyVal -> Exc string.

Lemma sign_entry_skip js stream :
  already_signed stream -> sign_entry solver js stream = Ok stream.
Proof.
  intros (url & Hurl & Hin). unfold sign_entry. rewrite Hurl. simpl.
  rewrite Hin. reflexivity.
Qed.

Lemma sign_entry_signs js stream stream' :
  sign_entry solver js stream = Ok stream' -> already_signed stream'.
Proof.
  unfold sign_entry, already_signed.
  destruct (py_getitem stream "url") as [url|] eqn:Hurl; simpl; [|discriminate].
  destruct (py_contains "signature=" url) as [[|]|] eqn:Hin; simpl; try discriminate.
  - intros [= <-]. eauto.
  - destruct (py_getitem stream "s") as [s|]; simpl; [|discriminate].
    destruct (solver js s) as [sig|]; simpl; [|discriminate].
    destruct (py_getitem stream "itag"); simpl; [|discriminate].
    destruct url; simpl; try discriminate.
    destruct stream; simpl; try discriminate.
    intros [= <-]. eexists. simpl. rewrite dict_get_set_eq. split; [reflexivity|].
    simpl. f_equal.
    change "&signature="%string with ("&" +:+ "signature=")%string.
    rewrite !append_assoc. rewrite <- append_assoc.
    apply str_contains_append.
Qed.

Lemma sign_entries_signed js manifest :
  Forall already_signed manifest ->
  sign_entries solver js manifest = (Ok tt, manifest).
Proof.
  induction 1 as [|stream rest Hs _ IH]; simpl; [reflexivity|].
  rewrite (sign_entry_skip _ _ Hs), IH. reflexivity.
Qed.

Lemma sign_entries_ok js manifest manifest' :
  sign_entries solver js manifest = (Ok tt, manifest') ->
  Forall already_signed manifest'.
Proof.
  revert manifest'. induction manifest as [|stream rest IH]; simpl; intros manifest'.
  - intros [= <-]. constructor.
  - destruct (sign_entry solver js stream) as [stream'|] eqn:E; [|discriminate].
    destruct (sign_entries solver js rest) as [r rest'].
    intros [= -> <-]. constructor; [eapply sign_entry_signs; eauto | now apply IH].
Qed.

Lemma sign_entries_keeps js manifest r manifest' (i : nat) stream :
  sign_entries solver js manifest = (r, manifest') ->
  manifest !! i = Some stream -> already_signed stream ->
  manifest' !! i = Some stream.
Proof.
  revert r manifest' i. induction manifest as [|x rest IH]; simpl; intros r manifest' i.
  - intros _ Hi. discriminate Hi.
  - destruct (sign_entry solver js x) as [x'|] eqn:E.
    + destruct (sign_entries solver js rest) as [r0 rest'] eqn:Er.
      intros [= <- <-]. destruct i as [|i]; simpl.
      * intros [= ->] Hs. rewrite (sign_entry_skip _ _ Hs) in E. congruence.
      * intros Hi Hs. eapply IH; eauto.
    + intros [= <- <-]. trivial.
Qed.

Lemma sign_entries_app js pre pre' rest :
  sign_entries solver js pre = (Ok tt, pre') ->
  sign_entries solver js (pre ++ rest) =
  (fst (sign_entries solver js rest), pre' ++ snd (sign_entries solver js rest)).
Proof.
  revert pre'. induction pre as [|x pre IH]; simpl; intros pre'.
  - intros [= <-]. now destruct (sign_entries solver js rest).
  - destruct (sign_entry solver js x) as [x'|]; [|discriminate].
    destruct (sign_entries solver js pre) as [r p'] eqn:E.
    intros [= -> <-]. rewrite (IH p' eq_refl). reflexivity.
Qed.

End SignatureFacts.

Lemma apply_signature_rerun solver solver' cfg fmt js js' cfg' :
  apply_signature solver cfg fmt js = (Ok tt, cfg') ->
  apply_signature solver' cfg' fmt js' = (Ok tt, cfg').
Proof.
  unfold apply_signature.
  destruct (dict_get cfg fmt) as [m|] eqn:Hm; [|discriminate].
  destruct (py_iter m) as [items|] eqn:Hit; [|discriminate].
  destruct (sign_entries solver js items) as [r items'] eqn:Hrun.
  intros [= -> <-].
  pose proof (sign_entries_ok _ _ _ _ Hrun) as Hsigned.
  destruct m; simpl in Hit; try discriminate; injection Hit as <-.
  - (* a str manifest: only the empty one gets through *)
    rewrite Hm. simpl. destruct s; simpl in *; [reflexivity | discriminate].
  - rewrite dict_get_set_eq. simpl.
    rewrite (sign_entries_signed _ _ _ Hsigned), dict_set_set. reflexivity.
  - rewrite Hm. simpl. destruct d as [|[k v] d]; simpl in *; [reflexivity | discriminate].
Qed.

(** C5. [apply_signature] is idempotent on signed entries: an entry whose
    url already contains [signature=] is skipped and left unchanged,
    inside a run as well, and running the resolution again over a
    manifest a first run resolved returns that manifest unchanged,
    whatever solver and script the second run is given. *)
Theorem apply_signature_idempotent_on_signed :
  (forall solver js stream,
      already_signed stream -> sign_entry solver js stream = Ok stream) /\
  (forall solver js manifest r manifest' (i : nat) stream,
      sign_entries solver js manifest = (r, manifest') ->
      manifest !! i = Some stream -> already_signed stream ->
      manifest' !! i = Some stream) /\
  (forall solver solver' cfg fmt js js' cfg',
      apply_signature solver cfg fmt js = (Ok tt, cfg') ->
      apply_signature solver' cfg' fmt js' = (Ok tt, cfg')).
Proof.
  split; [|split].
  - exact sign_entry_skip.
  - exact sign_entries_keeps.
  - exact apply_signature_rerun.
Qed.

Lemma apply_signature_idempotent_witness :
  apply_signature working_solver
    (manifest_of [signed_entry; scrambled_entry "22"]) "adaptive_fmts" "js" =
  (Ok tt,
   manifest_of
     [signed_entry;
      VDict [("itag", VStr "22");
             ("url", VStr "https://host/v?id=1&signature=SIGTOKEN");
             ("s", VStr "TOKEN")]]) /\
  apply_signature failing_solver
    (manifest_of
       [signed_entry;
        VDict [("itag", VStr "22");
               ("url", VStr "https://host/v?id=1&signature=SIGTOKEN");
               ("s", VStr "TOKEN")]]) "adaptive_fmts" "other js" =
  (Ok tt,
   manifest_of
     [signed_entry;
      VDict [("itag", VStr "22");
             ("url", VStr "https://host/v?id=1&signature=SIGTOKEN");
             ("s", VStr "TOKEN")]]).
Proof.
  split; [reflexivity|].
  apply (proj2 (proj2 apply_signature_idempotent_on_signed)
           working_solver failing_solver
           (manifest_of [signed_entry; scrambled_entry "22"])
           "adaptive_fmts" "js" "other js").
  reflexivity.
Defined.

(** C3, as the code has it. When the entries before it are processed and
    the solver fails on the token of an entry whose url lacks the marker,
    [apply_signature] raises the solver's own error, unchanged: the
    failure is neither swallowed nor skipped. The failing entry and the
    later ones are left as they were. *)
Theorem solver_failure_propagates solver cfg fmt js pre pre' stream post url token e :
  dict_get cfg fmt = Some (VList (pre ++ stream :: post)) ->
  sign_entries solver js pre = (Ok tt, pre') ->
  py_getitem stream "url" = Ok url ->
  py_contains "signature=" url = Ok false ->
  py_getitem stream "s" = Ok token ->
  solver js token = Err e ->
  apply_signature solver cfg fmt js =
  (Err e, dict_set cfg fmt (VList (pre' ++ stream :: post))).
Proof.
  intros Hm Hpre Hurl Hin Hs He. unfold apply_signature. rewrite Hm. simpl.
  rewrite (sign_entries_app _ _ _ _ _ Hpre). simpl.
  unfold sign_entry. rewrite Hurl. simpl. rewrite Hin. simpl.
  rewrite Hs. simpl. rewrite He. reflexivity.
Qed.

Lemma solver_failure_propagates_witness :
  apply_signature failing_solver
    (manifest_of [signed_entry; scrambled_entry "22"; scrambled_entry "43"])
    "adaptive_fmts" "js" =
  (Err (Raised "RegexMatchError" "get_signature"),
   manifest_of [signed_entry; scrambled_entry "22"; scrambled_entry "43"]).
Proof.
  apply (solver_failure_propagates failing_solver
           (manifest_of [signed_entry; scrambled_entry "22"; scrambled_entry "43"])
           "adaptive_fmts" "js" [signed_entry] [signed_entry]
           (scrambled_entry "22") [scrambled_entry "43"]
           (VStr "https://host/v?id=1") (VStr "TOKEN")
           (Raised "RegexMatchError" "get_signature"));
    reflexivity.
Defined.

(** C3, as worded, fails: the error that reaches the caller is the one the
    solver raised from the script and the token, the same for an entry of
    itag 22 and one of itag 43, so nothing in it identifies the entry. *)
Lemma solver_error_carries_no_itag :
  fst (apply_signature failing_solver (manifest_of [scrambled_entry "22"])
         "adaptive_fmts" "js") = Err (Raised "RegexMatchError" "get_signature") /\
  fst (apply_signature failing_solver (manifest_of [scrambled_entry "43"])
         "adaptive_fmts" "js") = Err (Raised "RegexMatchError" "get_signature") /\
  ~ (exists itag_of : PyErr -> string,
        forall i, i = "22" \/ i = "43" ->
          exists e, fst (apply_signature failing_solver
                           (manifest_of [scrambled_entry i])
                           "adaptive_fmts" "js") = Err e /\
                    itag_of e = i).
Proof.
  split; [reflexivity|]. split; [reflexivity|].
  intros [itag_of H].
  destruct (H "22" (or_introl eq_refl)) as (e1 & H1 & I1).
  destruct (H "43" (or_intror eq_refl)) as (e2 & H2 & I2).
  simpl in H1, H2. injection H1 as <-. injection H2 as <-.
  rewrite I1 in I2. discriminate I2.
Qed.

(** ** Descrambling *)

Lemma str_split_nonempty sep s : str_split sep s <> [].
Proof.
  destruct s as [|c s]; simpl; [discriminate|].
  destruct (Ascii.eqb c sep); [discriminate|].
  destruct (str_split sep s); discriminate.
Qed.

Lemma str_split_join sep s :
  String.concat (String sep "") (str_split sep s) = s.
Proof.
  induction s as [|c s IH]; simpl; [reflexivity|].
  destruct (Ascii.eqb c sep) eqn:E.
  - apply Ascii.eqb_eq in E as ->.
    pose proof (str_split_nonempty sep s) as Hne.
    destruct (str_split sep s) as [|h t]; [congruence|].
    cbn [String.concat]. rewrite append_nil, append_cons, append_nil.
    f_equal. exact IH.
  - destruct (str_split sep s) as [|h t]; simpl in *; [congruence|].
    destruct t; [congruence|].
    rewrite append_cons. f_equal. exact IH.
Qed.

Lemma str_split_segments sep s :
  Forall (fun seg => ~ In sep (list_ascii_of_string seg)) (str_split sep s).
Proof.
  induction s as [|c s IH]; simpl.
  - constructor; [intros [] | constructor].
  - destruct (Ascii.eqb c sep) eqn:E.
    + constructor; [intros [] | exact IH].
    + apply Ascii.eqb_neq in E.
      destruct (str_split sep s) as [|h t].
      * constructor; [|constructor]. simpl. intros [H|[]]. congruence.
      * inversion IH as [|? ? Hh Ht]; subst. constructor; [|exact Ht].
        simpl. intros [H|H]; [congruence | exact (Hh H)].
Qed.

Lemma dict_set_fresh {V} (d : list (string * V)) k v :
  k ∉ map fst d -> dict_set d k v = d ++ [(k, v)].
Proof.
  induction d as [|[k' v'] d IH]; simpl; [reflexivity|].
  intros Hk. apply not_elem_of_cons in Hk as [Hne Hk].
  destruct (String.eqb k' k) eqn:E.
  - apply String.eqb_eq in E. congruence.
  - now rewrite IH.
Qed.

Lemma dict_of_pairs_from {V} (pairs acc : list (string * V)) :
  NoDup (map fst (acc ++ pairs)) ->
  fold_left (fun d kv => dict_set d (fst kv) (snd kv)) pairs acc = acc ++ pairs.
Proof.
  revert acc. induction pairs as [|[k v] pairs IH]; intros acc Hnd; simpl.
  - now rewrite app_nil_r.
  - rewrite dict_set_fresh.
    + rewrite IH; rewrite <- app_assoc; [reflexivity | exact Hnd].
    + rewrite map_app in Hnd. apply NoDup_app in Hnd as (_ & Hdis & _).
      intros Hin. apply (Hdis k Hin). simpl. left.
Qed.

Lemma dict_of_pairs_distinct {V} (pairs : list (string * V)) :
  NoDup (map fst pairs) -> dict_of_pairs pairs = pairs.
Proof. intros H. unfold dict_of_pairs. now rewrite dict_of_pairs_from. Qed.

(** C6. [apply_descrambler] replaces the encoded string under the key by
    one record per comma-separated segment, in input order, each record
    holding the decoded key/value pairs of its segment (in their order
    when the keys are distinct); splitting on commas loses nothing and
    leaves no comma in a segment. The encoded value
    [itag=5&url=u1,itag=6&url=u2] becomes the two records
    [{itag: 5, url: u1}], [{itag: 6, url: u2}]. *)
Theorem descrambler_splits_and_decodes :
  (forall parse_qsl unquote stream_data key encoded,
      dict_get stream_data key = Some (VStr encoded) ->
      exists records,
        apply_descrambler parse_qsl unquote stream_data key =
        (Ok tt, dict_set stream_data key (VList records)) /\
        length records = length (str_split "," encoded) /\
        forall (i : nat) segment,
          str_split "," encoded !! i = Some segment ->
          records !! i =
          Some (VDict (dict_of_pairs
                         (map (fun kv => (fst kv, VStr (unquote (snd kv))))
                              (parse_qsl segment))))) /\
  (forall s,
      String.concat "," (str_split "," s) = s /\
      Forall (fun seg => ~ In ","%char (list_ascii_of_string seg))
             (str_split "," s)) /\
  (forall pairs : list (string * PyVal),
      NoDup (map fst pairs) -> dict_of_pairs pairs = pairs) /\
  apply_descrambler Urllib.parse_qsl Urllib.unquote
    [("url_encoded_fmt_stream_map", VStr "itag=5&url=u1,itag=6&url=u2")]
    "url_encoded_fmt_stream_map" =
  (Ok tt,
   [("url_encoded_fmt_stream_map",
     VList [VDict [("itag", VStr "5"); ("url", VStr "u1")];
            VDict [("itag", VStr "6"); ("url", VStr "u2")]])]).
Proof.
  split; [|split; [|split]].
  - intros parse_qsl unquote stream_data key encoded Hget.
    eexists. unfold apply_descrambler. rewrite Hget.
    split; [reflexivity|]. split; [now rewrite length_map|].
    intros i segment Hi. rewrite list_lookup_fmap, Hi. reflexivity.
  - intros s. split; [apply str_split_join | apply str_split_segments].
  - intros pairs. apply dict_of_pairs_distinct.
  - reflexivity.
Qed.

Lemma descrambler_witness :
  exists records,
    apply_descrambler Urllib.parse_qsl Urllib.unquote
      [("title", VStr "t"); ("adaptive_fmts", VStr "itag=137&url=a%3Fb%3D1,itag=140&url=c")]
      "adaptive_fmts" =
    (Ok tt, dict_set [("title", VStr "t");
                      ("adaptive_fmts", VStr "itag=137&url=a%3Fb%3D1,itag=140&url=c")]
              "adaptive_fmts" (VList records)) /\
    length records = 2%nat.
Proof.
  destruct (proj1 descrambler_splits_and_decodes Urllib.parse_qsl Urllib.unquote
              [("title", VStr "t"); ("adaptive_fmts", VStr "itag=137&url=a%3Fb%3D1,itag=140&url=c")]
              "adaptive_fmts" "itag=137&url=a%3Fb%3D1,itag=140&url=c" eq_refl)
    as (records & Hrun & Hlen & _).
  exists records. split; [exact Hrun | exact Hlen].
Defined.

(** ** Codec classification *)

Lemma mod2_even (n : nat) : Nat.eqb (n mod 2) 0 = Nat.even n.
Proof.
  destruct (Nat.even n) eqn:E.
  - apply Nat.even_spec in E as [k ->]. apply Nat.eqb_eq.
    rewrite Nat.mul_comm. apply Nat.Div0.mod_mul.
  - apply Nat.eqb_neq. intros H.
    assert (Nat.even n = true) as Hev; [|congruence].
    apply Nat.even_spec. exists (n / 2)%nat.
    pose proof (Nat.div_mod_eq n 2). lia.
Qed.

Lemma is_adaptive_odd self :
  is_adaptive self = Nat.odd (length (codecs self)).
Proof. unfold is_adaptive. rewrite mod2_even. reflexivity. Qed.

Lemma is_progressive_even self :
  is_progressive self = Nat.even (length (codecs self)).
Proof.
  unfold is_progressive. rewrite is_adaptive_odd. unfold Nat.odd.
  apply negb_involutive.
Qed.

Lemma parse_codecs_progressive self video audio :
  parse_codecs self = Ok (video, audio) -> is_progressive self = true ->
  exists v a, codecs self = [v; a] /\ video = Some v /\ audio = Some a.
Proof.
  unfold parse_codecs, is_progressive. intros H Hp. rewrite Hp in H.
  destruct (codecs self) as [|v [|a [|? ?]]]; try discriminate.
  injection H as <- <-. eauto.
Qed.

Lemma parse_codecs_adaptive_video self video audio :
  parse_codecs self = Ok (video, audio) -> is_adaptive self = true ->
  type self = "video" ->
  exists v, codecs self !! 0%nat = Some v /\ video = Some v /\ audio = None.
Proof.
  unfold parse_codecs, includes_video_track, is_progressive.
  intros H Ha Ht. rewrite Ha, Ht in H. simpl in H.
  destruct (codecs self) as [|v ?]; [discriminate|].
  injection H as <- <-. eauto.
Qed.

Lemma parse_codecs_adaptive_audio self video audio :
  parse_codecs self = Ok (video, audio) -> is_adaptive self = true ->
  type self = "audio" ->
  exists a, codecs self !! 0%nat = Some a /\ audio = Some a /\ video = None.
Proof.
  unfold parse_codecs, includes_video_track, includes_audio_track, is_progressive.
  intros H Ha Ht. rewrite Ha, Ht in H. simpl in H.
  destruct (codecs self) as [|a ?]; [discriminate|].
  injection H as <- <-. eauto.
Qed.

Lemma parse_codecs_total self :
  (length (codecs self) = 1 \/ length (codecs self) = 2)%nat ->
  exists video audio, parse_codecs self = Ok (video, audio).
Proof.
  unfold parse_codecs, includes_video_track, includes_audio_track,
    is_progressive, is_adaptive.
  destruct (codecs self) as [|v [|a [|? ?]]]; simpl; intros [H|H];
    try discriminate; eauto.
  destruct (String.eqb (type self) "video"); eauto.
  destruct (String.eqb (type self) "audio"); eauto.
Qed.

(** ** Construction *)

Section InitFacts.

Variable py_int : PyVal -> Exc Z.
Variable mime_type_codec : PyVal -> Exc (string * list string).
Variable itag_table : gmap Z Itags.FormatProfile.

Lemma init_inv record config s :
  __init__ py_int mime_type_codec itag_table record config = Ok s ->
  parse_codecs s = Ok (video_codec s, audio_codec s) /\
  _filesize s = None /\
  player_config_args s = config /\
  Some (url s) = dict_get record "url" /\
  exists raw profile,
    dict_get record "itag" = Some raw /\ py_int raw = Ok (itag s) /\
    itag_table !! itag s = Some profile.
Proof.
  unfold __init__. simpl.
  destruct (dict_get record "url") as [u|]; simpl; [|discriminate].
  destruct (dict_get record "itag") as [raw|]; simpl; [|discriminate].
  destruct (py_int raw) as [n|] eqn:Hn; simpl; [|discriminate].
  destruct (dict_get record "type") as [ty|]; simpl; [|discriminate].
  destruct (mime_type_codec ty) as [[mime cs]|]; simpl; [|discriminate].
  destruct (str_split "/" mime) as [|t [|st [|? ?]]]; try discriminate.
  match goal with |- context [parse_codecs ?x] => destruct (parse_codecs x) as [[v a]|] eqn:Hp end;
    simpl; [|discriminate].
  unfold Itags.get_format_profile.
  destruct (itag_table !! n) as [profile|] eqn:Hprof; simpl; [|discriminate].
  intros [= <-]. simpl. repeat split; eauto.
Qed.

End InitFacts.

(** C4. A descriptor is adaptive exactly when its codec count is odd and
    progressive exactly when it is even. For a constructed descriptor the
    per-track codecs are those [parse_codecs] derives: progressive gives
    the first entry as video codec and the second as audio codec;
    adaptive with major type video gives the first entry as video codec
    and no audio codec; adaptive with major type audio gives the first
    entry as audio codec and no video codec. With one or two codecs the
    derivation succeeds. [vp8, vorbis] is progressive with both tracks,
    [vp8] of type video is adaptive video-only, [vorbis] of type audio is
    adaptive audio-only. *)
Theorem codec_parity_classification :
  (forall self,
      is_adaptive self = Nat.odd (length (codecs self)) /\
      is_progressive self = Nat.even (length (codecs self))) /\
  (forall py_int mime_type_codec itag_table record config s,
      __init__ py_int mime_type_codec itag_table record config = Ok s ->
      parse_codecs s = Ok (video_codec s, audio_codec s)) /\
  (forall self video audio,
      parse_codecs self = Ok (video, audio) ->
      (is_progressive self = true ->
       exists v a, codecs self = [v; a] /\ video = Some v /\ audio = Some a) /\
      (is_adaptive self = true -> type self = "video" ->
       exists v, codecs self !! 0%nat = Some v /\
                 video = Some v /\ audio = None) /\
      (is_adaptive self = true -> type self = "audio" ->
       exists a, codecs self !! 0%nat = Some a /\
                 audio = Some a /\ video = None)) /\
  (forall self,
      (length (codecs self) = 1 \/ length (codecs self) = 2)%nat ->
      exists video audio, parse_codecs self = Ok (video, audio)) /\
  (forall self,
      codecs self = ["vp8"; "vorbis"] ->
      is_progressive self = true /\
      parse_codecs self = Ok (Some "vp8", Some "vorbis") /\
      includes_video_track self = true /\
      includes_audio_track self = true) /\
  (forall self,
      codecs self = ["vp8"] -> type self = "video" ->
      is_adaptive self = true /\
      parse_codecs self = Ok (Some "vp8", None) /\
      includes_video_track self = true /\
      includes_audio_track self = false) /\
  (forall self,
      codecs self = ["vorbis"] -> type self = "audio" ->
      is_adaptive self = true /\
      parse_codecs self = Ok (None, Some "vorbis") /\
      includes_video_track self = false /\
      includes_audio_track self = true).
Proof.
  split; [|split; [|split; [|split; [|split; [|split]]]]].
  - intros self. split; [apply is_adaptive_odd | apply is_progressive_even].
  - intros py_int mime_type_codec itag_table record config s H.
    apply (init_inv _ _ _ _ _ _ H).
  - intros self video audio H. split; [|split].
    + now apply parse_codecs_progressive.
    + now apply parse_codecs_adaptive_video.
    + now apply parse_codecs_adaptive_audio.
  - exact parse_codecs_total.
  - intros self Hc.
    unfold parse_codecs, includes_video_track, includes_audio_track,
      is_progressive, is_adaptive. rewrite Hc. simpl. auto.
  - intros self Hc Ht.
    unfold parse_codecs, includes_video_track, includes_audio_track,
      is_progressive, is_adaptive. rewrite Hc, Ht. simpl. auto.
  - intros self Hc Ht.
    unfold parse_codecs, includes_video_track, includes_audio_track,
      is_progressive, is_adaptive. rewrite Hc, Ht. simpl. auto.
Qed.

Lemma codec_parity_witness :
  __init__ int_of mime_of table record_22 config = Ok stream_22 /\
  parse_codecs stream_22 = Ok (Some "vp8", Some "vorbis") /\
  is_progressive stream_22 = true.
Proof.
  assert (__init__ int_of mime_of table record_22 config = Ok stream_22) as H
    by reflexivity.
  split; [exact H|].
  split.
  - exact (proj1 (proj2 codec_parity_classification)
             int_of mime_of table record_22 config stream_22 H).
  - reflexivity.
Defined.

(** C10. An adaptive stream (odd codec count) whose major type is neither
    video nor audio derives no codec at all, [(None, None)], and reports
    neither an audio track nor a video track. *)
Theorem adaptive_other_type_has_no_codec self :
  Nat.odd (length (codecs self)) = true ->
  type self <> "video" -> type self <> "audio" ->
  is_adaptive self = true /\
  parse_codecs self = Ok (None, None) /\
  includes_audio_track self = false /\
  includes_video_track self = false.
Proof.
  intros Hodd Hv Ha.
  apply String.eqb_neq in Hv, Ha.
  unfold parse_codecs, includes_audio_track, includes_video_track, is_progressive.
  rewrite is_adaptive_odd, Hodd, Hv, Ha. simpl. auto.
Qed.

Lemma adaptive_other_type_witness :
  is_adaptive stream_text = true /\
  parse_codecs stream_text = Ok (None, None) /\
  includes_audio_track stream_text = false /\
  includes_video_track stream_text = false.
Proof.
  apply (adaptive_other_type_has_no_codec stream_text);
    [reflexivity | discriminate | discriminate].
Defined.

(** C7. For a record whose itag is absent from the profile table,
    construction never yields a descriptor; when the other fields of the
    record are well formed (url present, type field parsed into
    major/minor with one or two codecs) the failure is
    [UnknownFormatError] for that itag. *)
Theorem unknown_itag_fails_construction
        py_int mime_type_codec itag_table record config raw n :
  dict_get record "itag" = Some raw ->
  py_int raw = Ok n ->
  itag_table !! n = None ->
  (forall s, __init__ py_int mime_type_codec itag_table record config <> Ok s) /\
  (forall u ty mc t st,
      dict_get record "url" = Some u ->
      dict_get record "type" = Some ty ->
      mime_type_codec ty = Ok mc ->
      str_split "/" (fst mc) = [t; st] ->
      (length (snd mc) = 1 \/ length (snd mc) = 2)%nat ->
      __init__ py_int mime_type_codec itag_table record config =
      Err (UnknownFormatError n)).
Proof.
  intros Hraw Hint Habs. split.
  - intros s Hs.
    destruct (init_inv _ _ _ _ _ _ Hs) as (_ & _ & _ & _ & raw' & profile & Hr & Hi & Hp).
    rewrite Hraw in Hr. injection Hr as <-. rewrite Hint in Hi.
    injection Hi as ->. congruence.
  - intros u ty [mime cs] t st Hu Hty Hmc Hsplit Hlen. simpl in *.
    unfold __init__. simpl. rewrite Hu, Hraw. simpl. rewrite Hint. simpl.
    rewrite Hty. simpl. rewrite Hmc. simpl. rewrite Hsplit.
    match goal with |- context [parse_codecs ?x] =>
      destruct (parse_codecs_total x Hlen) as (v & a & ->) end.
    simpl. unfold Itags.get_format_profile. rewrite Habs. reflexivity.
Qed.

Lemma unknown_itag_witness :
  __init__ int_of mime_of table record_999 config =
  Err (UnknownFormatError 999).
Proof.
  apply (proj2 (unknown_itag_fails_construction int_of mime_of table
                  record_999 config (VStr "999") 999
                  eq_refl eq_refl eq_refl)
           (VStr "https://host/v?id=1&signature=AB")
           (VStr "video/webm;vp8,vorbis")
           ("video/webm"%string, ["vp8"; "vorbis"]%string) "video" "webm");
    try reflexivity.
  right. reflexivity.
Defined.

(** ** Title lookup *)

(** C8, as worded, fails: an explicit but empty title is present and is
    not returned, and a [player_response] that is not a mapping makes the
    lookup raise. *)
Lemma title_lookup_counterexample :
  title (stream_with_config [("title", VStr "")]) =
    Ok (VStr "Unknown YouTube Video Title") /\
  title_as_specified [("title", VStr "")] = VStr "" /\
  title (stream_with_config [("player_response", VStr "{}")]) =
    Err (AttributeError "get").
Proof. repeat split. Qed.

Lemma nested_lookup cfg nested :
  nested_title cfg = Some nested ->
  (player_response <- py_get (VDict cfg) "player_response" (VDict []) ;;
   video_details <- py_get player_response "videoDetails" (VDict []) ;;
   b <- py_get video_details "title" VNone ;;
   if truthy b then Ok b
   else Ok (VStr "Unknown YouTube Video Title"))%exc =
  Ok (if truthy nested then nested else VStr "Unknown YouTube Video Title").
Proof.
  unfold nested_title. simpl.
  destruct (dict_get cfg "player_response") as [[| | | |?|pr]|]; simpl;
    try discriminate.
  - destruct (dict_get pr "videoDetails") as [[| | | |?|vd]|]; simpl;
      try discriminate.
    + intros [= <-]. destruct (dict_get vd "title") as [b|]; simpl;
        [destruct (truthy b)|]; reflexivity.
    + intros [= <-]. reflexivity.
  - intros [= <-]. reflexivity.
Qed.

(** C8, as the code has it. The explicit title is returned when it is
    present and truthy, whatever else the mapping holds. Otherwise, when
    [player_response] and its [videoDetails] are mappings or absent, the
    lookup succeeds with the nested title if that is present and truthy,
    and with the placeholder if not. *)
Theorem title_precedence self :
  (forall t,
      dict_get (player_config_args self) "title" = Some t ->
      truthy t = true -> title self = Ok t) /\
  (forall nested,
      truthy (default VNone (dict_get (player_config_args self) "title")) = false ->
      nested_title (player_config_args self) = Some nested ->
      title self =
      Ok (if truthy nested then nested
          else VStr "Unknown YouTube Video Title")) /\
  (forall nested,
      nested_title (player_config_args self) = Some nested ->
      exists v, title self = Ok v).
Proof.
  assert (forall t,
             dict_get (player_config_args self) "title" = Some t ->
             truthy t = true -> title self = Ok t) as Hexplicit.
  { intros t Ht Htruthy. unfold title, title_of. simpl.
    rewrite Ht. simpl. now rewrite Htruthy. }
  assert (forall nested,
             truthy (default VNone (dict_get (player_config_args self) "title")) = false ->
             nested_title (player_config_args self) = Some nested ->
             title self =
             Ok (if truthy nested then nested
                 else VStr "Unknown YouTube Video Title")) as Hnested.
  { intros nested Hfalsy Hn. unfold title, title_of.
    pose proof (nested_lookup _ _ Hn) as Hlookup.
    cbn [py_get exc_bind] in Hlookup |- *.
    destruct (dict_get (player_config_args self) "title") as [t|];
      [simpl in Hfalsy; cbn [exc_bind]; rewrite Hfalsy
      |cbn [exc_bind truthy]]; exact Hlookup. }
  split; [exact Hexplicit|]. split; [exact Hnested|].
  intros nested Hn.
  destruct (truthy (default VNone (dict_get (player_config_args self) "title")))
    eqn:Htruthy.
  - destruct (dict_get (player_config_args self) "title") as [t|] eqn:Ht;
      [|discriminate Htruthy].
    exists t. exact (Hexplicit t eq_refl Htruthy).
  - eexists. apply (Hnested nested);
      [first [reflexivity | exact Htruthy] | exact Hn].
Qed.

Lemma title_precedence_witness :
  title (stream_with_config
           [("title", VStr "");
            ("player_response",
             VDict [("videoDetails", VDict [("title", VStr "Nested")])])]) =
  Ok (VStr "Nested") /\
  title stream_22 = Ok (VStr "My Video").
Proof.
  split.
  - apply (proj1 (proj2 (title_precedence (stream_with_config
           [("title", VStr "");
            ("player_response",
             VDict [("videoDetails", VDict [("title", VStr "Nested")])])])))
             (VStr "Nested")); reflexivity.
  - apply (proj1 (title_precedence stream_22) (VStr "My Video")); reflexivity.
Defined.

(** ** The download pipeline *)

Section PipelineFacts.

Context {U : Type}.
Variable py_int : PyVal -> Exc Z.
Variable request_headers : PyVal -> Exc PyVal.
Variable request_stream : PyVal -> list bytes * option PyErr.
Variable safe_filename : PyVal -> Exc string.
Variable target_directory : option string -> Exc string.

Abbreviation filesize' := (filesize (U:=U) py_int request_headers).
Abbreviation content_length' := (content_length py_int request_headers).

Lemma filesize_cached (st : State U) n :
  _filesize (this st) = Some n -> filesize' st = (Ok n, st).
Proof.
  intros H. unfold filesize, bind, gets. simpl. rewrite H. reflexivity.
Qed.

Lemma filesize_ok (st : State U) T :
  has_size py_int request_headers (this st) T ->
  filesize' st = (Ok T, after_filesize st T).
Proof.
  unfold after_filesize, headers_events. intros [Hc|[Hc Hlen]].
  - rewrite (filesize_cached _ _ Hc).
    destruct st as [[] ? ? ? ? ?]. simpl in *. subst.
    rewrite app_nil_r. reflexivity.
  - unfold filesize, bind, gets, modify, lift, ret. simpl. rewrite Hc.
    unfold content_length in Hlen.
    destruct (request_headers (url (this st))) as [h|]; simpl in *; [|discriminate].
    destruct (py_getitem h "content-length") as [raw|]; simpl in *; [|discriminate].
    rewrite Hlen. reflexivity.
Qed.

(** *** Stepping through a sequence of effects *)

Lemma bind_ok {A B} (m : M (U:=U) A) (k : A -> M B) st a st' :
  m st = (Ok a, st') -> bind m k st = k a st'.
Proof. intros H. unfold bind. now rewrite H. Qed.

Lemma bind_gets {A B} (f : State U -> A) (k : A -> M B) st :
  bind (gets f) k st = k (f st) st.
Proof. reflexivity. Qed.

Lemma bind_modify {B} (f : State U -> State U) (k : unit -> M B) st :
  bind (modify f) k st = k tt (f st).
Proof. reflexivity. Qed.

Lemma bind_lift_ok {A B} (r : Exc A) (k : A -> M B) (st : State U) a :
  r = Ok a -> bind (lift r) k st = k a st.
Proof. intros ->. reflexivity. Qed.

(** *** One chunk, the loop, the completion handler *)

Lemma on_progress_ok (st : State U) chunk sink r :
  callbacks_return (monostate st) ->
  exists st',
    on_progress chunk sink r st = (Ok tt, st') /\
    this st' = this st /\ monostate st' = monostate st /\
    files st' = files (sink_write sink chunk st) /\
    buffers st' = buffers (sink_write sink chunk st) /\
    trace st' = trace st ++ SinkWrite sink chunk ::
                match Monostate.on_progress (monostate st) with
                | Some _ => [ProgressCall chunk sink r]
                | None => []
                end.
Proof.
  intros [Hp _]. unfold on_progress, call, bind, modify, gets, lift, ret.
  destruct sink; simpl;
    (destruct (Monostate.on_progress (monostate st)) as [f|] eqn:Hf; simpl;
     [match goal with |- context [f ?s ?c ?k ?r ?u] =>
        destruct (Hp f eq_refl s c k r u) as [u' ->] end;
      eexists; repeat split; simpl; now rewrite <- app_assoc
     |eexists; repeat split]).
Qed.

Lemma on_complete_ok (st : State U) sink :
  callbacks_return (monostate st) ->
  exists st',
    on_complete sink st = (Ok tt, st') /\
    this st' = this st /\ monostate st' = monostate st /\
    files st' = files st /\ buffers st' = buffers st /\
    trace st' = trace st ++ complete_events (monostate st) sink.
Proof.
  intros [_ Hc]. unfold on_complete, complete_events, call, bind, modify, gets, lift, ret.
  simpl. destruct (Monostate.on_complete (monostate st)) as [g|] eqn:Hg; simpl.
  - match goal with |- context [g ?s ?k ?u] =>
      destruct (Hc g eq_refl s k u) as [u' ->] end.
    eexists; repeat split.
  - eexists; repeat split. simpl. now rewrite app_nil_r.
Qed.

Lemma sink_write_content (st : State U) sink chunk b :
  sink_content st sink = Some b ->
  sink_content (sink_write sink chunk st) sink = Some (b ++ chunk).
Proof.
  destruct sink as [p|id]; unfold sink_content, sink_write; intros H.
  - cbn [files with_files]. rewrite lookup_insert_eq.
    rewrite H. reflexivity.
  - cbn [buffers with_buffers]. rewrite list_lookup_alter_eq, H. reflexivity.
Qed.

Lemma sum_len_app a b : sum_len (a ++ b) = sum_len a + sum_len b.
Proof. induction a as [|c a IH]; simpl; [reflexivity | rewrite IH; lia]. Qed.

Lemma transfer_events_cons (m : Monostate.t U) sink T c cs :
  transfer_events m sink T (c :: cs) =
  chunk_events m sink T (c :: cs) 0 c ++
  transfer_events m sink (T - Z.of_nat (length c)) cs.
Proof.
  unfold transfer_events. cbn [imap concat].
  rewrite (imap_ext (chunk_events m sink T (c :: cs) ∘ S)
                    (chunk_events m sink (T - Z.of_nat (length c)) cs)).
  - reflexivity.
  - intros i x _. unfold chunk_events. simpl.
    destruct (Monostate.on_progress m); [|reflexivity].
    do 3 f_equal. lia.
Qed.

Lemma transfer_ok sink chunks : forall T (st : State U),
  callbacks_return (monostate st) ->
  exists st',
    transfer sink chunks T st = (Ok (T - sum_len chunks), st') /\
    this st' = this st /\ monostate st' = monostate st /\
    trace st' = trace st ++ transfer_events (monostate st) sink T chunks /\
    forall b, sink_content st sink = Some b ->
              sink_content st' sink = Some (b ++ concat chunks).
Proof.
  induction chunks as [|c cs IH]; intros T st Hcb.
  - exists st. simpl. unfold ret. repeat split.
    + f_equal. f_equal. lia.
    + unfold transfer_events. simpl. now rewrite app_nil_r.
    + intros b Hb. now rewrite app_nil_r.
  - destruct (on_progress_ok st c sink (T - Z.of_nat (length c)) Hcb)
      as (st1 & Hrun & Hthis & Hmono & Hfiles & Hbufs & Htrace).
    assert (callbacks_return (monostate st1)) as Hcb1 by now rewrite Hmono.
    destruct (IH (T - Z.of_nat (length c)) st1 Hcb1)
      as (st2 & Hrun2 & Hthis2 & Hmono2 & Htrace2 & Hcontent2).
    exists st2. cbn [transfer]. unfold bind at 1. rewrite Hrun, Hrun2.
    repeat split.
    + f_equal. f_equal. simpl. lia.
    + congruence.
    + congruence.
    + rewrite Htrace2, Htrace, Hmono, transfer_events_cons.
      unfold chunk_events. simpl.
      rewrite <- !app_assoc. simpl.
      destruct (Monostate.on_progress (monostate st)); simpl;
        [rewrite Z.add_0_r|]; reflexivity.
    + intros b Hb. simpl. rewrite app_assoc. apply Hcontent2.
      pose proof (sink_write_content st sink c b Hb) as Hw.
      destruct sink; simpl in *; congruence.
Qed.

Lemma transfer_app sink pre post : forall T (st : State U),
  transfer sink (pre ++ post) T st =
  match transfer sink pre T st with
  | (Ok r, st1) => transfer sink post r st1
  | (Err e, st1) => (Err e, st1)
  end.
Proof.
  induction pre as [|c pre IH]; intros T st; simpl; [reflexivity|].
  unfold bind.
  destruct (on_progress c sink (T - Z.of_nat (length c)) st) as [[[]|e] st1];
    [apply IH | reflexivity].
Qed.

(** *** The transfer and its completion, for either sink *)

Lemma stream_and_complete {A} (x : A) (s1 : State U) sink T chunks b :
  request_stream (url (this s1)) = (chunks, None) ->
  callbacks_return (monostate s1) ->
  sink_content s1 sink = Some b ->
  exists st',
    bind (stream_into request_stream sink T)
         (fun _ => bind (on_complete sink) (fun _ => ret x)) s1 = (Ok x, st') /\
    trace st' = trace s1 ++
                StreamRequest (url (this s1)) ::
                transfer_events (monostate s1) sink T chunks ++
                complete_events (monostate s1) sink /\
    sink_content st' sink = Some (b ++ concat chunks) /\
    this st' = this s1 /\ monostate st' = monostate s1.
Proof.
  intros Hstream Hcb Hb.
  set (s2 := log (StreamRequest (url (this s1))) s1).
  assert (callbacks_return (monostate s2)) as Hcb2 by exact Hcb.
  destruct (transfer_ok sink chunks T s2 Hcb2)
    as (s3 & Hrun & Hthis & Hmono & Htrace & Hcontent).
  assert (callbacks_return (monostate s3)) as Hcb3 by now rewrite Hmono.
  destruct (on_complete_ok s3 sink Hcb3)
    as (s4 & Hrun4 & Hthis4 & Hmono4 & Hfiles4 & Hbufs4 & Htrace4).
  exists s4. split; [|split; [|split; [|split]]].
  - assert (stream_into request_stream sink T s1 = (Ok (T - sum_len chunks), s3)) as Hinto.
    { unfold stream_into. rewrite bind_gets, bind_modify, Hstream.
      fold s2. rewrite (bind_ok _ _ _ _ _ Hrun). reflexivity. }
    rewrite (bind_ok _ _ _ _ _ Hinto), (bind_ok _ _ _ _ _ Hrun4). reflexivity.
  - rewrite Htrace4, Htrace, Hmono. subst s2. simpl.
    rewrite <- !app_assoc. reflexivity.
  - specialize (Hcontent b). 
    assert (sink_content s4 sink = sink_content s3 sink) as ->
      by (destruct sink; simpl; congruence).
    apply Hcontent. destruct sink; exact Hb.
  - rewrite Hthis4, Hthis. reflexivity.
  - rewrite Hmono4, Hmono. reflexivity.
Qed.

Abbreviation download' :=
  (download (U:=U) py_int request_headers request_stream safe_filename
            target_directory).
Abbreviation file_path_of' := (file_path_of safe_filename target_directory).

Lemma download_skips (st : State U) o f pre p content T :
  file_path_of' (this st) o f pre = Ok p ->
  files st !! p = Some content ->
  has_size py_int request_headers (this st) T ->
  Z.of_nat (length content) = T ->
  download' o f pre true st = (Ok p, after_filesize st T).
Proof.
  intros Hpath Hfile Hsize Hlen. unfold download.
  rewrite bind_gets, (bind_lift_ok _ _ _ _ Hpath), bind_gets, Hfile.
  erewrite bind_ok.
  2:{ erewrite bind_ok by (apply filesize_ok; exact Hsize). reflexivity. }
  apply Z.eqb_eq in Hlen. rewrite Hlen. reflexivity.
Qed.

Lemma download_transfers (st : State U) o f pre k p T chunks :
  file_path_of' (this st) o f pre = Ok p ->
  has_size py_int request_headers (this st) T ->
  request_stream (url (this st)) = (chunks, None) ->
  callbacks_return (monostate st) ->
  (k = false \/
   forall content, files st !! p = Some content ->
                   Z.of_nat (length content) <> T) ->
  exists st',
    download' o f pre k st = (Ok p, st') /\
    trace st' = trace st ++ headers_events (this st) ++
                StreamRequest (url (this st)) ::
                transfer_events (monostate st) (FileSink p) T chunks ++
                complete_events (monostate st) (FileSink p) /\
    files st' !! p = Some (concat chunks) /\
    _filesize (this st') = Some T.
Proof.
  intros Hpath Hsize Hstream Hcb Hnoskip.
  set (s1 := after_filesize st T).
  set (s2 := with_files s1 (<[p := []]> (files s1))).
  destruct (stream_and_complete p s2 (FileSink p) T chunks [] Hstream Hcb)
    as (st' & Hrun & Htrace & Hcontent & Hthis & _).
  { simpl. apply lookup_insert_eq. }
  exists st'. split; [|split; [|split]].
  - unfold download.
    rewrite bind_gets, (bind_lift_ok _ _ _ _ Hpath), bind_gets.
    assert (filesize' s1 = (Ok T, s1)) as Hcached
        by (apply filesize_cached; reflexivity).
    pose proof (filesize_ok st T Hsize) as Hfirst. fold s1 in Hfirst.
    assert (forall content : bytes, Z.of_nat (length content) <> T ->
              (Z.of_nat (length content) =? T) = false) as Hneq
        by (intros; now apply Z.eqb_neq).
    destruct k; [destruct (files st !! p) as [content|] eqn:Hfile|].
    + destruct Hnoskip as [|Hnoskip]; [discriminate|].
      erewrite bind_ok.
      2:{ erewrite bind_ok by exact Hfirst. reflexivity. }
      rewrite (Hneq _ (Hnoskip content eq_refl)). cbv beta iota.
      rewrite (bind_ok _ _ _ _ _ Hcached), (bind_ok _ _ _ _ _ Hcached).
      rewrite bind_modify. exact Hrun.
    + erewrite bind_ok by reflexivity. cbv beta iota.
      rewrite (bind_ok _ _ _ _ _ Hfirst), (bind_ok _ _ _ _ _ Hcached).
      rewrite bind_modify. exact Hrun.
    + erewrite bind_ok by reflexivity. cbv beta iota.
      rewrite (bind_ok _ _ _ _ _ Hfirst), (bind_ok _ _ _ _ _ Hcached).
      rewrite bind_modify. exact Hrun.
  - rewrite Htrace. simpl. rewrite <- app_assoc. reflexivity.
  - exact Hcontent.
  - rewrite Hthis. reflexivity.
Qed.

Lemma stream_to_buffer_transfers (st : State U) T chunks :
  has_size py_int request_headers (this st) T ->
  request_stream (url (this st)) = (chunks, None) ->
  callbacks_return (monostate st) ->
  exists st',
    stream_to_buffer py_int request_headers request_stream st =
    (Ok (BufferSink (length (buffers st))), st') /\
    trace st' = trace st ++ headers_events (this st) ++
                StreamRequest (url (this st)) ::
                transfer_events (monostate st)
                  (BufferSink (length (buffers st))) T chunks ++
                complete_events (monostate st)
                  (BufferSink (length (buffers st))) /\
    buffers st' !! length (buffers st) = Some (concat chunks) /\
    _filesize (this st') = Some T.
Proof.
  intros Hsize Hstream Hcb.
  set (id := length (buffers st)).
  set (s0 := with_buffers st (buffers st ++ [[]])).
  set (s1 := after_filesize s0 T).
  destruct (stream_and_complete (BufferSink id) s1 (BufferSink id) T chunks []
              Hstream Hcb)
    as (st' & Hrun & Htrace & Hcontent & Hthis & _).
  { simpl. subst id. rewrite lookup_app_r by reflexivity.
    rewrite Nat.sub_diag. reflexivity. }
  exists st'. split; [|split; [|split]].
  - unfold stream_to_buffer. rewrite bind_gets, bind_modify. fold s0 id.
    rewrite (bind_ok _ _ _ _ _ (filesize_ok s0 T Hsize)). fold s1.
    rewrite (bind_ok _ _ s1 T s1) by (apply filesize_cached; reflexivity).
    exact Hrun.
  - rewrite Htrace. simpl. rewrite <- app_assoc. reflexivity.
  - exact Hcontent.
  - rewrite Hthis. reflexivity.
Qed.

(** *** The filled cache is an invariant of every operation *)

Lemma keeps_ret {A} (a : A) : keeps_cache (U:=U) (ret a).
Proof. intros st n requests H. exact H. Qed.

Lemma keeps_raise {A} e : keeps_cache (U:=U) (raise (A:=A) e).
Proof. intros st n requests H. exact H. Qed.

Lemma keeps_lift {A} (r : Exc A) : keeps_cache (U:=U) (lift r).
Proof. intros st n requests H. exact H. Qed.

Lemma keeps_gets {A} (f : State U -> A) : keeps_cache (U:=U) (gets f).
Proof. intros st n requests H. exact H. Qed.

Lemma keeps_modify (f : State U -> State U) :
  (forall st, this (f st) = this st /\
              (trace (f st) = trace st \/
               exists ev, is_headers_request ev = false /\
                          trace (f st) = trace st ++ [ev])) ->
  keeps_cache (U:=U) (modify f).
Proof.
  intros Hf st n requests [Hc Hr]. destruct (Hf st) as [Hthis Htrace].
  split; simpl; [now rewrite Hthis|].
  destruct Htrace as [->|(ev & Hev & ->)]; [exact Hr|].
  rewrite List.filter_app. simpl. rewrite Hev, app_nil_r. exact Hr.
Qed.

Lemma keeps_bind {A B} (m : M A) (k : A -> M B) :
  keeps_cache (U:=U) m -> (forall a, keeps_cache (U:=U) (k a)) -> keeps_cache (U:=U) (bind m k).
Proof.
  intros Hm Hk st n requests H. specialize (Hm st n requests H).
  unfold bind. destruct (m st) as [[a|e] st']; simpl in *.
  - now apply Hk.
  - exact Hm.
Qed.

Lemma keeps_filesize : keeps_cache (U:=U) filesize'.
Proof.
  intros st n requests [Hc Hr]. rewrite (filesize_cached _ _ Hc).
  split; assumption.
Qed.

Ltac keeps :=
  repeat first
    [ apply keeps_ret | apply keeps_raise | apply keeps_lift
    | apply keeps_gets | apply keeps_filesize
    | apply keeps_bind; [|intros ?]
    | apply keeps_modify; intros ?; split; [try reflexivity|];
      first [ left; reflexivity
            | right; eexists; split; [|reflexivity]; reflexivity ] ].

Lemma keeps_call ev f :
  is_headers_request ev = false -> keeps_cache (U:=U) (call (U:=U) ev f).
Proof.
  intros Hev. unfold call. keeps.
  apply keeps_modify. intros st. split; [reflexivity|]. right. eauto.
Qed.

Lemma keeps_on_progress chunk sink r :
  keeps_cache (U:=U) (on_progress (U:=U) chunk sink r).
Proof.
  unfold on_progress. apply keeps_bind; [|intros _].
  - apply keeps_modify. intros st. split.
    + destruct sink; reflexivity.
    + right. exists (SinkWrite sink chunk). split; [reflexivity|].
      destruct sink; reflexivity.
  - apply keeps_bind; [keeps|]. intros [f|]; [|keeps].
    apply keeps_bind; [keeps|]. intros self. now apply keeps_call.
Qed.

Lemma keeps_on_complete sink : keeps_cache (U:=U) (on_complete (U:=U) sink).
Proof.
  unfold on_complete. apply keeps_bind; [keeps|]. intros [g|]; [|keeps].
  apply keeps_bind; [keeps|]. intros self. now apply keeps_call.
Qed.

Lemma keeps_transfer sink chunks :
  forall r, keeps_cache (U:=U) (transfer (U:=U) sink chunks r).
Proof.
  induction chunks as [|c cs IH]; intros r; simpl; [keeps|].
  apply keeps_bind; [apply keeps_on_progress | intros _; apply IH].
Qed.

Lemma keeps_stream_into sink r :
  keeps_cache (U:=U) (stream_into (U:=U) request_stream sink r).
Proof.
  unfold stream_into. apply keeps_bind; [keeps|]. intros self.
  apply keeps_bind.
  - apply keeps_modify. intros st. split; [reflexivity|]. right.
    eexists. split; [|reflexivity]. reflexivity.
  - intros _. destruct (request_stream (url self)) as [chunks failure].
    apply keeps_bind; [apply keeps_transfer|]. intros r'.
    destruct failure; keeps.
Qed.

Lemma keeps_download o f pre k : keeps_cache (U:=U) (download' o f pre k).
Proof.
  unfold download. apply keeps_bind; [keeps|]. intros self.
  apply keeps_bind; [keeps|]. intros p.
  apply keeps_bind; [keeps|]. intros existing.
  apply keeps_bind.
  - destruct k, existing; keeps.
  - intros [|]; [keeps|].
    apply keeps_bind; [keeps|]. intros r.
    apply keeps_bind; [keeps|]. intros _.
    apply keeps_bind.
    + apply keeps_modify. intros st. split; [reflexivity|]. left. reflexivity.
    + intros _. apply keeps_bind; [apply keeps_stream_into|]. intros _.
      apply keeps_bind; [apply keeps_on_complete|]. intros _. keeps.
Qed.

Lemma keeps_stream_to_buffer :
  keeps_cache (U:=U) (stream_to_buffer (U:=U) py_int request_headers request_stream).
Proof.
  unfold stream_to_buffer. apply keeps_bind; [keeps|]. intros id.
  apply keeps_bind.
  - apply keeps_modify. intros st. split; [reflexivity|]. left. reflexivity.
  - intros _. apply keeps_bind; [keeps|]. intros r.
    apply keeps_bind; [keeps|]. intros _.
    apply keeps_bind; [apply keeps_stream_into|]. intros _.
    apply keeps_bind; [apply keeps_on_complete|]. intros _. keeps.
Qed.

Lemma run_op_keeps op (st : State U) n requests :
  cache_inv n requests st ->
  cache_inv n requests
    (run_op py_int request_headers request_stream safe_filename
            target_directory op st).
Proof.
  intros H. destruct op; simpl.
  - now apply keeps_filesize.
  - exact H.
  - now apply keeps_download.
  - now apply keeps_stream_to_buffer.
  - now apply keeps_on_progress.
  - now apply keeps_on_complete.
Qed.

Lemma run_ops_keeps ops : forall (st : State U) n requests,
  cache_inv n requests st ->
  cache_inv n requests
    (run_ops py_int request_headers request_stream safe_filename
             target_directory ops st).
Proof.
  induction ops as [|op ops IH]; intros st n requests H; simpl; [exact H|].
  apply IH. now apply run_op_keeps.
Qed.

(** *** The callbacks' own state *)

(** Up to the transfer, [download] does the same in every run that does
    not skip. *)
Lemma download_reaches_transfer (st : State U) o f pre k p T :
  file_path_of safe_filename target_directory (this st) o f pre = Ok p ->
  has_size py_int request_headers (this st) T ->
  (k = false \/
   forall content, files st !! p = Some content ->
                   Z.of_nat (length content) <> T) ->
  download py_int request_headers request_stream safe_filename
           target_directory o f pre k st =
  bind (stream_into request_stream (FileSink p) T)
       (fun _ => bind (on_complete (FileSink p)) (fun _ => ret p))
       (with_files (after_filesize st T)
                   (<[p := []]> (files (after_filesize st T)))).
Proof.
  intros Hpath Hsize Hnoskip.
  set (s1 := after_filesize st T).
  unfold download.
  rewrite bind_gets, (bind_lift_ok _ _ _ _ Hpath), bind_gets.
  assert (filesize py_int request_headers s1 = (Ok T, s1)) as Hcached
      by (apply filesize_cached; reflexivity).
  pose proof (filesize_ok st T Hsize) as Hfirst.
  fold s1 in Hfirst.
  assert (forall content : bytes, Z.of_nat (length content) <> T ->
            (Z.of_nat (length content) =? T) = false) as Hneq
      by (intros; now apply Z.eqb_neq).
  destruct k; [destruct (files st !! p) as [content|] eqn:Hfile|].
  - destruct Hnoskip as [|Hnoskip]; [discriminate|].
    erewrite bind_ok.
    2:{ erewrite bind_ok by exact Hfirst. reflexivity. }
    rewrite (Hneq _ (Hnoskip content eq_refl)). cbv beta iota.
    rewrite (bind_ok _ _ _ _ _ Hcached), (bind_ok _ _ _ _ _ Hcached).
    rewrite bind_modify. reflexivity.
  - erewrite bind_ok by reflexivity. cbv beta iota.
    rewrite (bind_ok _ _ _ _ _ Hfirst), (bind_ok _ _ _ _ _ Hcached).
    rewrite bind_modify. reflexivity.
  - erewrite bind_ok by reflexivity. cbv beta iota.
    rewrite (bind_ok _ _ _ _ _ Hfirst), (bind_ok _ _ _ _ _ Hcached).
    rewrite bind_modify. reflexivity.
Qed.

Lemma stream_to_buffer_reaches_transfer (st : State U) T :
  has_size py_int request_headers (this st) T ->
  stream_to_buffer py_int request_headers request_stream st =
  bind (stream_into request_stream (BufferSink (length (buffers st))) T)
       (fun _ => bind (on_complete (BufferSink (length (buffers st))))
                      (fun _ => ret (BufferSink (length (buffers st)))))
       (after_filesize (with_buffers st (buffers st ++ [[]])) T).
Proof.
  intros Hsize.
  set (s0 := with_buffers st (buffers st ++ [[]])).
  set (s1 := after_filesize s0 T).
  unfold stream_to_buffer. rewrite bind_gets, bind_modify. fold s0.
  rewrite (bind_ok _ _ _ _ _ (filesize_ok s0 T Hsize)).
  fold s1.
  rewrite (bind_ok _ _ s1 T s1) by (apply filesize_cached; reflexivity).
  reflexivity.
Qed.

Lemma progress_args_cons T c (cs : list bytes) :
  progress_args T (c :: cs) =
  (c, T - Z.of_nat (length c)) :: progress_args (T - Z.of_nat (length c)) cs.
Proof.
  unfold progress_args. cbn [imap]. f_equal.
  - f_equal. simpl. lia.
  - apply imap_ext. intros i x _. simpl. f_equal. lia.
Qed.

Lemma progress_steps_err (m : Monostate.t U) self sink args e :
  fold_left (progress_step m self sink) args (Err e) = Err e.
Proof. induction args as [|a args IH]; simpl; [reflexivity | exact IH]. Qed.

Lemma run_progress_cons (m : Monostate.t U) self sink a args u u1 :
  run_progress m self sink (a :: args) u = Ok u1 ->
  exists u',
    match Monostate.on_progress m with
    | Some f => f self (fst a) sink (snd a) u
    | None => Ok u
    end = Ok u' /\
    run_progress m self sink args u' = Ok u1.
Proof.
  unfold run_progress. simpl.
  destruct (match Monostate.on_progress m with
            | Some f => f self (fst a) sink (snd a) u
            | None => Ok u
            end) as [u'|e]; [eauto|].
  rewrite progress_steps_err. discriminate.
Qed.


Lemma on_progress_step (st : State U) chunk sink r u' :
  match Monostate.on_progress (monostate st) with
  | Some f => f (this st) chunk sink r (observer st)
  | None => Ok (observer st)
  end = Ok u' ->
  exists st',
    on_progress chunk sink r st = (Ok tt, st') /\
    this st' = this st /\ monostate st' = monostate st /\
    observer st' = u' /\
    files st' = files (sink_write sink chunk st) /\
    buffers st' = buffers (sink_write sink chunk st) /\
    trace st' = trace st ++ SinkWrite sink chunk ::
                match Monostate.on_progress (monostate st) with
                | Some _ => [ProgressCall chunk sink r]
                | None => []
                end.
Proof.
  unfold on_progress, call, bind, modify, gets, lift, ret.
  destruct sink; simpl;
    (destruct (Monostate.on_progress (monostate st)) as [f|]; simpl;
     [intros ->; eexists; repeat split; simpl; now rewrite <- app_assoc
     |intros [= <-]; eexists; repeat split]).
Qed.

Lemma on_progress_stop (st : State U) chunk sink r f e :
  Monostate.on_progress (monostate st) = Some f ->
  f (this st) chunk sink r (observer st) = Err e ->
  exists st',
    on_progress chunk sink r st = (Err e, st') /\
    this st' = this st /\ observer st' = observer st /\
    files st' = files (sink_write sink chunk st) /\
    buffers st' = buffers (sink_write sink chunk st) /\
    trace st' = trace st ++ [SinkWrite sink chunk; ProgressCall chunk sink r].
Proof.
  intros Hf Hraise.
  unfold on_progress, call, bind, modify, gets, lift, ret.
  destruct sink; simpl; rewrite Hf; simpl; rewrite Hraise;
    eexists; repeat split; simpl; now rewrite <- app_assoc.
Qed.


Lemma transfer_runs sink chunks : forall T (st : State U) u1,
  run_progress (monostate st) (this st) sink (progress_args T chunks)
               (observer st) = Ok u1 ->
  exists st',
    transfer sink chunks T st = (Ok (T - sum_len chunks), st') /\
    this st' = this st /\ monostate st' = monostate st /\
    observer st' = u1 /\
    trace st' = trace st ++ transfer_events (monostate st) sink T chunks /\
    forall b, sink_content st sink = Some b ->
              sink_content st' sink = Some (b ++ concat chunks).
Proof.
  induction chunks as [|c cs IH]; intros T st u1 Hspec.
  - injection Hspec as <-. exists st. simpl. unfold ret. repeat split.
    + f_equal. f_equal. lia.
    + unfold transfer_events. simpl. now rewrite app_nil_r.
    + intros b Hb. now rewrite app_nil_r.
  - rewrite progress_args_cons in Hspec.
    destruct (run_progress_cons _ _ _ _ _ _ _ Hspec) as (u' & Hstep & Hrest).
    simpl in Hstep.
    destruct (on_progress_step st c sink (T - Z.of_nat (length c)) u' Hstep)
      as (st1 & Hrun & Hthis & Hmono & Hobs & Hfiles & Hbufs & Htrace).
    rewrite <- Hthis, <- Hmono, <- Hobs in Hrest.
    destruct (IH (T - Z.of_nat (length c)) st1 u1 Hrest)
      as (st2 & Hrun2 & Hthis2 & Hmono2 & Hobs2 & Htrace2 & Hcontent2).
    exists st2. cbn [transfer]. unfold bind at 1. rewrite Hrun, Hrun2.
    repeat split.
    + f_equal. f_equal. simpl. lia.
    + congruence.
    + congruence.
    + exact Hobs2.
    + rewrite Htrace2, Htrace, Hmono, transfer_events_cons.
      unfold chunk_events. simpl.
      rewrite <- !app_assoc. simpl.
      destruct (Monostate.on_progress (monostate st)); simpl;
        [rewrite Z.add_0_r|]; reflexivity.
    + intros b Hb. simpl. rewrite app_assoc. apply Hcontent2.
      pose proof (sink_write_content st sink c b Hb) as Hw.
      destruct sink; simpl in *; congruence.
Qed.


End PipelineFacts.

Lemma transfer_events_no_complete {U} (m : Monostate.t U) sink chunks :
  forall T, List.filter is_complete_call (transfer_events m sink T chunks) = [].
Proof.
  induction chunks as [|c cs IH]; intros T; [reflexivity|].
  rewrite transfer_events_cons, List.filter_app, IH, app_nil_r.
  unfold chunk_events. destruct (Monostate.on_progress m); reflexivity.
Qed.




(** C2. With [skip_existing=True], when a file exists at the resolved
    path and its size equals the size the descriptor reports, [download]
    returns that path at once: the files, the buffers and the callbacks'
    state are untouched, and the only event there can be is the headers
    request that fetched the size (no stream request, no write, no
    callback). *)
Theorem skip_existing_avoids_transfer {U} py_int request_headers
        request_stream safe_filename target_directory (st : State U)
        output_path filename filename_prefix file_path content T :
  file_path_of safe_filename target_directory (this st)
               output_path filename filename_prefix = Ok file_path ->
  files st !! file_path = Some content ->
  has_size py_int request_headers (this st) T ->
  Z.of_nat (length content) = T ->
  exists st',
    download py_int request_headers request_stream safe_filename
             target_directory output_path filename filename_prefix true st =
    (Ok file_path, st') /\
    files st' = files st /\
    buffers st' = buffers st /\
    observer st' = observer st /\
    trace st' = trace st ++ headers_events (this st) /\
    Forall (fun ev => is_headers_request ev = true) (headers_events (this st)).
Proof.
  intros Hpath Hfile Hsize Hlen. exists (after_filesize st T).
  split; [now apply (download_skips _ _ _ _ _ _ _ _ _ _ content)|].
  repeat split. unfold headers_events.
  destruct (_filesize (this st)); repeat constructor.
Qed.

Lemma skip_existing_witness :
  exists st',
    download int_of headers_of stream_of safe_name directory_of
             None None None true state_on_disk =
    (Ok "/tmp/My Video.webm", st') /\
    files st' = files state_on_disk /\
    trace st' = [HeadersRequest (VStr "https://host/v?id=1&signature=AB")].
Proof.
  destruct (skip_existing_avoids_transfer int_of headers_of stream_of
              safe_name directory_of state_on_disk None None None
              "/tmp/My Video.webm" (chunk_a ++ chunk_b) 6
              eq_refl eq_refl (or_intror (conj eq_refl eq_refl)) eq_refl)
    as (st' & Hrun & Hfiles & _ & _ & Htrace & _).
  exists st'. split; [exact Hrun|]. split; [exact Hfiles | exact Htrace].
Defined.

(** C9. The filesize cache is set at most once: the first access issues
    one headers request and stores the content-length; an access with a
    filled cache returns the stored value and leaves the whole state as
    it is; and no sequence of operations of the descriptor changes a
    filled cache or issues another headers request. *)
Theorem filesize_memoized_once {U} py_int request_headers request_stream
        safe_filename target_directory :
  (forall (st : State U) T,
      _filesize (this st) = None ->
      content_length py_int request_headers (url (this st)) = Ok T ->
      exists st',
        filesize py_int request_headers st = (Ok T, st') /\
        _filesize (this st') = Some T /\
        trace st' = trace st ++ [HeadersRequest (url (this st))]) /\
  (forall (st : State U) n,
      _filesize (this st) = Some n ->
      filesize py_int request_headers st = (Ok n, st)) /\
  (forall ops (st : State U) n,
      _filesize (this st) = Some n ->
      _filesize (this (run_ops py_int request_headers request_stream
                               safe_filename target_directory ops st)) = Some n /\
      List.filter is_headers_request
        (trace (run_ops py_int request_headers request_stream
                        safe_filename target_directory ops st)) =
      List.filter is_headers_request (trace st)).
Proof.
  split; [|split].
  - intros st T Hnone Hlen. exists (after_filesize st T).
    split; [apply filesize_ok; right; now split|].
    split; [reflexivity|]. simpl. unfold headers_events. now rewrite Hnone.
  - intros st n. apply filesize_cached.
  - intros ops st n Hc.
    apply (run_ops_keeps py_int request_headers request_stream safe_filename
             target_directory ops st n _ (conj Hc eq_refl)).
Qed.

Lemma filesize_memoized_witness :
  exists st',
    filesize int_of headers_of state_0 = (Ok 6, st') /\
    _filesize (this st') = Some 6 /\
    trace st' = [HeadersRequest (VStr "https://host/v?id=1&signature=AB")].
Proof.
  exact (proj1 (filesize_memoized_once int_of headers_of stream_of safe_name
                  directory_of) state_0 6 eq_refl eq_refl).
Defined.

(** * Further properties *)

Import Frames MoreFixtures.

(** ** More on construction and the derived attributes *)

Lemma init_fields py_int mime_type_codec itag_table record config s :
  __init__ py_int mime_type_codec itag_table record config = Ok s ->
  str_split "/" (mime_type s) = [type s; subtype s] /\
  exists ty, dict_get record "type" = Some ty /\
             mime_type_codec ty = Ok (mime_type s, codecs s).
Proof.
  unfold __init__. simpl.
  destruct (dict_get record "url") as [u|]; simpl; [|discriminate].
  destruct (dict_get record "itag") as [raw|]; simpl; [|discriminate].
  destruct (py_int raw) as [n|]; simpl; [|discriminate].
  destruct (dict_get record "type") as [ty|]; simpl; [|discriminate].
  destruct (mime_type_codec ty) as [[mime cs]|] eqn:Hmc; simpl; [|discriminate].
  destruct (str_split "/" mime) as [|t [|st [|? ?]]] eqn:Hsplit; try discriminate.
  match goal with |- context [parse_codecs ?x] =>
    destruct (parse_codecs x) as [[v a]|] end; simpl; [|discriminate].
  destruct (Itags.get_format_profile itag_table n); simpl; [|discriminate].
  intros [= <-]. simpl. split; [exact Hsplit|].
  exists ty. split; [reflexivity | exact Hmc].
Qed.

(** X1. For a constructed descriptor the derived codecs agree with the
    track flags: there is a video codec exactly when the stream includes a
    video track, an audio codec exactly when it includes an audio track,
    and both tracks are included exactly when it is progressive. *)
Theorem tracks_match_codecs py_int mime_type_codec itag_table record config s :
  __init__ py_int mime_type_codec itag_table record config = Ok s ->
  (video_codec s <> None <-> includes_video_track s = true) /\
  (audio_codec s <> None <-> includes_audio_track s = true) /\
  includes_video_track s && includes_audio_track s = is_progressive s.
Proof.
  intros H. destruct (init_inv _ _ _ _ _ _ H) as (Hp & _).
  revert Hp. unfold parse_codecs, includes_video_track, includes_audio_track,
    is_progressive.
  destruct (is_adaptive s); simpl.
  - destruct (String.eqb (type s) "video") eqn:Ev; simpl.
    + apply String.eqb_eq in Ev. rewrite Ev. simpl.
      destruct (codecs s); [discriminate|]. intros [= <- <-].
      repeat split; try congruence; discriminate.
    + destruct (String.eqb (type s) "audio") eqn:Ea; simpl.
      * destruct (codecs s); [discriminate|]. intros [= <- <-].
        repeat split; try congruence; discriminate.
      * intros [= <- <-]. repeat split; congruence.
  - destruct (codecs s) as [|v [|a [|? ?]]]; try discriminate.
    intros [= <- <-]. repeat split; try congruence; discriminate.
Qed.

Lemma tracks_match_codecs_witness :
  (video_codec stream_22 <> None <-> includes_video_track stream_22 = true) /\
  (audio_codec stream_22 <> None <-> includes_audio_track stream_22 = true) /\
  includes_video_track stream_22 && includes_audio_track stream_22 =
  is_progressive stream_22.
Proof.
  apply (tracks_match_codecs int_of mime_of table record_22 config stream_22).
  reflexivity.
Defined.

Lemma parse_codecs_accepts self :
  length (codecs self) = 2%nat \/ Nat.odd (length (codecs self)) = true ->
  exists video audio, parse_codecs self = Ok (video, audio).
Proof.
  unfold parse_codecs, includes_video_track, includes_audio_track,
    is_progressive. rewrite is_adaptive_odd.
  intros [Hlen|Hodd].
  - destruct (codecs self) as [|v [|a [|? ?]]]; try discriminate. simpl. eauto.
  - rewrite Hodd. simpl.
    destruct (codecs self) as [|c cs]; [discriminate|].
    destruct (String.eqb (type self) "video"); eauto.
    destruct (String.eqb (type self) "audio"); eauto.
Qed.

(** X2. A record that is otherwise well formed is accepted exactly when it
    lists two codecs or an odd number of them: a constructed descriptor
    has two codecs or an odd number; with a known itag, two codecs or an
    odd number (three, say) are accepted, the descriptor being adaptive
    for an odd number; and an even number other than two, none included,
    is refused with [ValueError], whatever the itag. *)
Theorem init_codec_count py_int mime_type_codec itag_table record config :
  (forall s,
      __init__ py_int mime_type_codec itag_table record config = Ok s ->
      length (codecs s) = 2%nat \/ Nat.odd (length (codecs s)) = true) /\
  (forall u raw n ty mc t st profile,
      dict_get record "url" = Some u ->
      dict_get record "itag" = Some raw -> py_int raw = Ok n ->
      dict_get record "type" = Some ty -> mime_type_codec ty = Ok mc ->
      str_split "/" (fst mc) = [t; st] ->
      itag_table !! n = Some profile ->
      length (snd mc) = 2%nat \/ Nat.odd (length (snd mc)) = true ->
      exists s,
        __init__ py_int mime_type_codec itag_table record config = Ok s /\
        codecs s = snd mc /\
        is_adaptive s = Nat.odd (length (snd mc))) /\
  (forall u raw n ty mc t st,
      dict_get record "url" = Some u ->
      dict_get record "itag" = Some raw -> py_int raw = Ok n ->
      dict_get record "type" = Some ty -> mime_type_codec ty = Ok mc ->
      str_split "/" (fst mc) = [t; st] ->
      Nat.even (length (snd mc)) = true -> length (snd mc) <> 2%nat ->
      __init__ py_int mime_type_codec itag_table record config =
      Err ValueError).
Proof.
  split; [|split].
  - intros s H. destruct (init_inv _ _ _ _ _ _ H) as (Hp & _).
    destruct (is_adaptive s) eqn:Ha.
    + right. now rewrite <- is_adaptive_odd.
    + left. unfold parse_codecs in Hp. rewrite Ha in Hp. simpl in Hp.
      destruct (codecs s) as [|v [|a [|? ?]]]; try discriminate. reflexivity.
  - intros u raw n ty [mime cs] t st profile Hu Hraw Hn Hty Hmc Hsplit Hprof Hlen.
    simpl in *. unfold __init__. simpl. rewrite Hu, Hraw. simpl.
    rewrite Hn. simpl. rewrite Hty. simpl. rewrite Hmc. simpl. rewrite Hsplit.
    match goal with |- context [parse_codecs ?x] =>
      destruct (parse_codecs_accepts x Hlen) as (v & a & ->) end.
    simpl. unfold Itags.get_format_profile. rewrite Hprof. simpl.
    eexists. split; [reflexivity|]. split; [reflexivity|].
    apply is_adaptive_odd.
  - intros u raw n ty [mime cs] t st Hu Hraw Hn Hty Hmc Hsplit Heven Hlen.
    simpl in *. unfold __init__. simpl. rewrite Hu, Hraw. simpl.
    rewrite Hn. simpl. rewrite Hty. simpl. rewrite Hmc. simpl. rewrite Hsplit.
    unfold parse_codecs. rewrite is_adaptive_odd. cbn [codecs].
    unfold Nat.odd. rewrite Heven. simpl.
    destruct cs as [|v [|a [|? ?]]]; try reflexivity. now elim Hlen.
Qed.

(** X3. For a constructed descriptor the mime type is its major type, a
    slash and its subtype, and neither part contains a slash. *)
Theorem mime_type_round_trip py_int mime_type_codec itag_table record config s :
  __init__ py_int mime_type_codec itag_table record config = Ok s ->
  mime_type s = type s +:+ "/" +:+ subtype s /\
  ~ In "/"%char (list_ascii_of_string (type s)) /\
  ~ In "/"%char (list_ascii_of_string (subtype s)).
Proof.
  intros H. destruct (init_fields _ _ _ _ _ _ H) as (Hsplit & _).
  pose proof (str_split_join "/" (mime_type s)) as Hjoin.
  pose proof (str_split_segments "/" (mime_type s)) as Hseg.
  rewrite Hsplit in Hjoin, Hseg. split; [symmetry; exact Hjoin|].
  inversion Hseg as [|? ? Ht Hrest]; subst.
  inversion Hrest as [|? ? Hst _]; subst. split; assumption.
Qed.

Lemma mime_type_round_trip_witness :
  mime_type stream_22 = type stream_22 +:+ "/" +:+ subtype stream_22.
Proof.
  apply (mime_type_round_trip int_of mime_of table record_22 config stream_22).
  reflexivity.
Defined.

(** X4. Whatever the player configuration holds, a title that is
    returned is truthy: never [None], never an empty string. *)
Theorem title_is_truthy self v :
  title self = Ok v -> truthy v = true.
Proof.
  unfold title, title_of. cbn [py_get exc_bind].
  destruct (dict_get (player_config_args self) "title") as [a|]; cbn [exc_bind].
  - destruct (truthy a) eqn:Ha; [now intros [= <-]|].
    destruct (dict_get (player_config_args self) "player_response")
      as [pr|]; cbn [exc_bind].
    + destruct (py_get pr "videoDetails" (VDict [])) as [vd|]; cbn [exc_bind];
        [|discriminate].
      destruct (py_get vd "title" VNone) as [b|]; cbn [exc_bind]; [|discriminate].
      destruct (truthy b) eqn:Hb; intros [= <-]; [exact Hb | reflexivity].
    + cbn. intros [= <-]. reflexivity.
  - cbn [truthy].
    destruct (dict_get (player_config_args self) "player_response")
      as [pr|]; cbn [exc_bind].
    + destruct (py_get pr "videoDetails" (VDict [])) as [vd|]; cbn [exc_bind];
        [|discriminate].
      destruct (py_get vd "title" VNone) as [b|]; cbn [exc_bind]; [|discriminate].
      destruct (truthy b) eqn:Hb; intros [= <-]; [exact Hb | reflexivity].
    + cbn. intros [= <-]. reflexivity.
Qed.

Lemma title_is_truthy_witness :
  truthy (VStr "My Video") = true.
Proof. apply (title_is_truthy stream_22 (VStr "My Video")). reflexivity. Defined.

Lemma init_codec_count_witness :
  __init__ int_of mime_of table record_four config = Err ValueError /\
  exists s, __init__ int_of mime_of table record_three config = Ok s /\
            codecs s = ["vp8"; "vorbis"; "opus"]%string /\
            is_adaptive s = true.
Proof.
  split.
  - apply (proj2 (proj2 (init_codec_count int_of mime_of table record_four config))
             (VStr "https://host/v?id=1&signature=AB") (VStr "22") 22
             (VStr "video/webm;vp8,vorbis,opus,aac")
             ("video/webm"%string, ["vp8"; "vorbis"; "opus"; "aac"]%string)
             "video" "webm"); try reflexivity.
    discriminate.
  - apply (proj1 (proj2 (init_codec_count int_of mime_of table record_three config))
             (VStr "https://host/v?id=1&signature=AB") (VStr "22") 22
             (VStr "video/webm;vp8,vorbis,opus")
             ("video/webm"%string, ["vp8"; "vorbis"; "opus"]%string)
             "video" "webm" profile_22); try reflexivity.
    right. reflexivity.
Defined.

(** ** More on the manifest transforms *)

Lemma dict_get_set_ne {V} (d : list (string * V)) k k' v :
  k <> k' -> dict_get (dict_set d k v) k' = dict_get d k'.
Proof.
  intros Hne. induction d as [|[k0 v0] d IH]; simpl.
  - apply String.eqb_neq in Hne. now rewrite Hne.
  - destruct (String.eqb k0 k) eqn:E; simpl; [|now rewrite IH].
    apply String.eqb_eq in E as ->.
    apply String.eqb_neq in Hne. now rewrite Hne.
Qed.

Lemma dict_set_keys {V} (d : list (string * V)) k v w :
  dict_get d k = Some w -> map fst (dict_set d k v) = map fst d.
Proof.
  induction d as [|[k0 v0] d IH]; simpl; [discriminate|].
  destruct (String.eqb k0 k); simpl; [reflexivity|].
  intros H. now rewrite IH.
Qed.

Lemma dict_get_app {V} (a b : list (string * V)) k :
  dict_get (a ++ b) k =
  match dict_get a k with
  | Some v => Some v
  | None => dict_get b k
  end.
Proof.
  induction a as [|[k0 v0] a IH]; simpl; [reflexivity|].
  destruct (String.eqb k0 k); [reflexivity | exact IH].
Qed.

Lemma dict_get_map {V W} (g : V -> W) (l : list (string * V)) k :
  dict_get (map (fun kv => (fst kv, g (snd kv))) l) k = g <$> dict_get l k.
Proof.
  induction l as [|[k0 v0] l IH]; simpl; [reflexivity|].
  destruct (String.eqb k0 k); [reflexivity | exact IH].
Qed.

Lemma dict_of_pairs_from_get {V} (pairs acc : list (string * V)) k :
  dict_get (fold_left (fun d kv => dict_set d (fst kv) (snd kv)) pairs acc) k =
  match dict_get (rev pairs) k with
  | Some v => Some v
  | None => dict_get acc k
  end.
Proof.
  revert acc. induction pairs as [|[k0 v0] pairs IH]; intros acc; simpl;
    [reflexivity|].
  rewrite IH, dict_get_app. simpl.
  destruct (dict_get (rev pairs) k); [reflexivity|].
  destruct (String.eqb k0 k) eqn:E.
  - apply String.eqb_eq in E as ->. apply dict_get_set_eq.
  - apply String.eqb_neq in E. now apply dict_get_set_ne.
Qed.

(** X16. In a descrambled record a key that the segment repeats holds the
    decoded value of its last occurrence, and a key the segment lacks is
    absent. *)
Theorem descrambled_record_last_wins parse_qsl unquote segment k :
  py_getitem (descramble_segment parse_qsl unquote segment) k =
  match dict_get (rev (parse_qsl segment)) k with
  | Some v => Ok (VStr (unquote v))
  | None => Err (KeyError k)
  end.
Proof.
  unfold descramble_segment, dict_of_pairs. simpl.
  rewrite dict_of_pairs_from_get. simpl.
  rewrite <- map_rev, (dict_get_map (fun v => VStr (unquote v))).
  destruct (dict_get (rev (parse_qsl segment)) k); reflexivity.
Qed.

(** X15. [apply_descrambler] on a missing key raises [KeyError] and
    changes nothing; whatever its outcome it keeps the keys of the data
    and their order and every value under another key; and applied again
    to a key it has descrambled it raises [AttributeError] (a list has no
    [split]) and changes nothing. *)
Theorem descrambler_frame parse_qsl unquote stream_data key :
  (dict_get stream_data key = None ->
   apply_descrambler parse_qsl unquote stream_data key =
   (Err (KeyError key), stream_data)) /\
  (forall r stream_data',
      apply_descrambler parse_qsl unquote stream_data key = (r, stream_data') ->
      map fst stream_data' = map fst stream_data /\
      forall k, k <> key -> dict_get stream_data' k = dict_get stream_data k) /\
  (forall stream_data' parse_qsl' unquote',
      apply_descrambler parse_qsl unquote stream_data key = (Ok tt, stream_data') ->
      apply_descrambler parse_qsl' unquote' stream_data' key =
      (Err (AttributeError "split"), stream_data')).
Proof.
  unfold apply_descrambler. split; [|split].
  - intros ->. reflexivity.
  - intros r stream_data'.
    destruct (dict_get stream_data key) as [[| | |encoded| |]|] eqn:Hget;
      intros [= <- <-]; try (split; [reflexivity | reflexivity]).
    split; [eapply dict_set_keys; eauto|].
    intros k Hk. now apply dict_get_set_ne.
  - intros stream_data' parse_qsl' unquote'.
    destruct (dict_get stream_data key) as [[| | |encoded| |]|] eqn:Hget;
      intros [= <-]. rewrite dict_get_set_eq. reflexivity.
Qed.

Lemma descrambler_frame_witness :
  apply_descrambler Urllib.parse_qsl Urllib.unquote
    [("adaptive_fmts",
      VList [VDict [("itag", VStr "5"); ("url", VStr "u1")]])]
    "adaptive_fmts" =
  (Err (AttributeError "split"),
   [("adaptive_fmts",
     VList [VDict [("itag", VStr "5"); ("url", VStr "u1")]])]).
Proof.
  apply (proj2 (proj2 (descrambler_frame Urllib.parse_qsl Urllib.unquote
                         [("adaptive_fmts", VStr "itag=5&url=u1")]
                         "adaptive_fmts"))
           _ Urllib.parse_qsl Urllib.unquote).
  reflexivity.
Defined.

(** *** What a successful resolution does to each entry *)

Section MoreSignatureFacts.

Variable solver : string -> PyVal -> Exc string.

Lemma sign_entry_ok_cases js stream stream' :
  sign_entry solver js stream = Ok stream' ->
  (stream' = stream /\ already_signed stream) \/
  (exists d u token signature,
      stream = VDict d /\ dict_get d "url" = Some (VStr u) /\
      str_contains "signature=" u = false /\
      dict_get d "s" = Some token /\
      solver js token = Ok signature /\
      stream' = VDict (dict_set d "url"
                         (VStr ((u +:+ "&signature=") +:+ signature)))).
Proof.
  unfold sign_entry, already_signed.
  destruct stream as [| | | | |d]; simpl; try discriminate.
  destruct (dict_get d "url") as [url|] eqn:Hurl; simpl; [|discriminate].
  destruct (py_contains "signature=" url) as [[|]|] eqn:Hin; simpl;
    try discriminate.
  - intros [= <-]. left. split; [reflexivity|]. exists url.
    split; [reflexivity | exact Hin].
  - destruct (dict_get d "s") as [token|] eqn:Hs; simpl; [|discriminate].
    destruct (solver js token) as [sig|] eqn:Hsig; simpl; [|discriminate].
    destruct (dict_get d "itag"); simpl; [|discriminate].
    destruct url as [| | |u| |]; simpl in *; try discriminate.
    intros [= <-]. right. exists d, u, token, sig.
    injection Hin as Hin. repeat split; auto.
Qed.

Lemma sign_entries_length js manifest :
  length (snd (sign_entries solver js manifest)) = length manifest.
Proof.
  induction manifest as [|x rest IH]; simpl; [reflexivity|].
  destruct (sign_entry solver js x); [|reflexivity].
  destruct (sign_entries solver js rest) as [r rest']. simpl in *.
  now rewrite IH.
Qed.

Lemma sign_entries_ok_lookup js manifest manifest' (i : nat) stream :
  sign_entries solver js manifest = (Ok tt, manifest') ->
  manifest !! i = Some stream ->
  exists stream', manifest' !! i = Some stream' /\
                  sign_entry solver js stream = Ok stream'.
Proof.
  revert manifest' i. induction manifest as [|x rest IH]; intros manifest' i;
    simpl; [intros _ Hi; discriminate Hi|].
  destruct (sign_entry solver js x) as [x'|] eqn:E; [|discriminate].
  destruct (sign_entries solver js rest) as [r rest'] eqn:Er.
  intros [= -> <-]. destruct i as [|i]; simpl.
  - intros [= <-]. eauto.
  - intros Hi. now apply IH.
Qed.

End MoreSignatureFacts.

(** X12. When [apply_signature] returns, the family holds as many
    entries as before, in the same order, and each one is either an entry
    that was already signed, unchanged, or the entry it was with its url
    replaced by [url + "&signature=" + signature], the signature being
    what the solver returned for the script and the entry's token. *)
Theorem apply_signature_signs_unsigned solver cfg fmt js cfg' items :
  apply_signature solver cfg fmt js = (Ok tt, cfg') ->
  dict_get cfg fmt = Some (VList items) ->
  exists items',
    dict_get cfg' fmt = Some (VList items') /\
    length items' = length items /\
    forall (i : nat) stream,
      items !! i = Some stream ->
      exists stream',
        items' !! i = Some stream' /\
        ((stream' = stream /\ already_signed stream) \/
         (exists d u token signature,
             stream = VDict d /\ dict_get d "url" = Some (VStr u) /\
             str_contains "signature=" u = false /\
             dict_get d "s" = Some token /\
             solver js token = Ok signature /\
             stream' = VDict (dict_set d "url"
                                (VStr ((u +:+ "&signature=") +:+ signature))))).
Proof.
  unfold apply_signature. intros Hrun Hget. rewrite Hget in Hrun. simpl in Hrun.
  destruct (sign_entries solver js items) as [r items'] eqn:Hloop.
  injection Hrun as -> <-. exists items'.
  split; [apply dict_get_set_eq|]. split.
  - pose proof (sign_entries_length solver js items) as Hlen.
    now rewrite Hloop in Hlen.
  - intros i stream Hi.
    destruct (sign_entries_ok_lookup _ _ _ _ _ _ Hloop Hi) as (stream' & Hi' & Hs).
    exists stream'. split; [exact Hi'|]. now apply sign_entry_ok_cases.
Qed.

Lemma apply_signature_signs_witness :
  exists items',
    dict_get (manifest_of
                [signed_entry;
                 VDict [("itag", VStr "22");
                        ("url", VStr "https://host/v?id=1&signature=SIGTOKEN");
                        ("s", VStr "TOKEN")]]) "adaptive_fmts" =
    Some (VList items') /\
    length items' = 2%nat.
Proof.
  destruct (apply_signature_signs_unsigned working_solver
              (manifest_of [signed_entry; scrambled_entry "22"])
              "adaptive_fmts" "js" _ [signed_entry; scrambled_entry "22"]
              eq_refl eq_refl) as (items' & Hget & Hlen & _).
  exists items'. split; [exact Hget | exact Hlen].
Defined.

(** X13. Whatever its outcome, [apply_signature] keeps the keys of the
    configuration and their order, every value under another key, and
    the number of entries of the family. *)
Theorem apply_signature_frame solver cfg fmt js r cfg' :
  apply_signature solver cfg fmt js = (r, cfg') ->
  map fst cfg' = map fst cfg /\
  (forall k, k <> fmt -> dict_get cfg' k = dict_get cfg k) /\
  (forall items,
      dict_get cfg fmt = Some (VList items) ->
      exists items', dict_get cfg' fmt = Some (VList items') /\
                     length items' = length items).
Proof.
  unfold apply_signature.
  destruct (dict_get cfg fmt) as [m|] eqn:Hget.
  2:{ intros [= <- <-]. repeat split. intros items H. discriminate H. }
  destruct (py_iter m) as [items0|] eqn:Hit.
  2:{ intros [= <- <-]. split; [reflexivity|]. split; [reflexivity|].
      intros items [= ->]. discriminate Hit. }
  destruct (sign_entries solver js items0) as [r0 items'] eqn:Hloop.
  intros [= <- <-].
  destruct m as [| | |s| l |d]; simpl in Hit; try discriminate.
  - repeat split. intros items H. discriminate H.
  - injection Hit as <-. split; [eapply dict_set_keys; eauto|].
    split; [intros k Hk; now apply dict_get_set_ne|].
    intros items [= <-]. exists items'. split; [apply dict_get_set_eq|].
    pose proof (sign_entries_length solver js l) as Hlen.
    now rewrite Hloop in Hlen.
  - repeat split. intros items H. discriminate H.
Qed.

Lemma apply_signature_frame_witness :
  dict_get (snd (apply_signature failing_solver
                   (manifest_of [scrambled_entry "22"]) "adaptive_fmts" "js"))
           "title" = Some (VStr "My Video").
Proof.
  apply (proj1 (proj2 (apply_signature_frame failing_solver
                         (manifest_of [scrambled_entry "22"])
                         "adaptive_fmts" "js" _ _ eq_refl)) "title").
  discriminate.
Defined.

Lemma apply_signature_stops solver cfg fmt js pre pre' stream post e :
  dict_get cfg fmt = Some (VList (pre ++ stream :: post)) ->
  sign_entries solver js pre = (Ok tt, pre') ->
  sign_entry solver js stream = Err e ->
  apply_signature solver cfg fmt js =
  (Err e, dict_set cfg fmt (VList (pre' ++ stream :: post))).
Proof.
  intros Hget Hpre Herr. unfold apply_signature. rewrite Hget. simpl.
  rewrite (sign_entries_app _ _ _ _ _ Hpre). simpl. rewrite Herr. reflexivity.
Qed.

(** X14. At the first entry that lacks a field the run stops with the
    entries before it resolved and the rest untouched: [KeyError] for
    [url]; for an unsigned entry [KeyError] for [s]; and, the debug log
    reading it, [KeyError] for [itag] after the solver has succeeded,
    the url of that entry staying unsigned. *)
Theorem unsigned_entry_needs_its_fields solver cfg fmt js pre pre' d post :
  dict_get cfg fmt = Some (VList (pre ++ VDict d :: post)) ->
  sign_entries solver js pre = (Ok tt, pre') ->
  (dict_get d "url" = None ->
   apply_signature solver cfg fmt js =
   (Err (KeyError "url"),
    dict_set cfg fmt (VList (pre' ++ VDict d :: post)))) /\
  (forall u,
      dict_get d "url" = Some (VStr u) ->
      str_contains "signature=" u = false ->
      dict_get d "s" = None ->
      apply_signature solver cfg fmt js =
      (Err (KeyError "s"),
       dict_set cfg fmt (VList (pre' ++ VDict d :: post)))) /\
  (forall u token signature,
      dict_get d "url" = Some (VStr u) ->
      str_contains "signature=" u = false ->
      dict_get d "s" = Some token ->
      solver js token = Ok signature ->
      dict_get d "itag" = None ->
      apply_signature solver cfg fmt js =
      (Err (KeyError "itag"),
       dict_set cfg fmt (VList (pre' ++ VDict d :: post)))).
Proof.
  intros Hget Hpre. split; [|split].
  - intros Hurl. apply (apply_signature_stops _ _ _ _ _ _ _ _ _ Hget Hpre).
    unfold sign_entry. simpl. now rewrite Hurl.
  - intros u Hurl Hin Hs.
    apply (apply_signature_stops _ _ _ _ _ _ _ _ _ Hget Hpre).
    unfold sign_entry. simpl. rewrite Hurl. simpl. rewrite Hin. simpl.
    now rewrite Hs.
  - intros u token signature Hurl Hin Hs Hsig Hitag.
    apply (apply_signature_stops _ _ _ _ _ _ _ _ _ Hget Hpre).
    unfold sign_entry. simpl. rewrite Hurl. simpl. rewrite Hin. simpl.
    rewrite Hs. simpl. rewrite Hsig. simpl. now rewrite Hitag.
Qed.

Lemma unsigned_entry_witness :
  apply_signature working_solver
    (manifest_of [signed_entry;
                  VDict [("url", VStr "https://host/v?id=1"); ("s", VStr "TOKEN")]])
    "adaptive_fmts" "js" =
  (Err (KeyError "itag"),
   manifest_of [signed_entry;
                VDict [("url", VStr "https://host/v?id=1"); ("s", VStr "TOKEN")]]).
Proof.
  apply (proj2 (proj2 (unsigned_entry_needs_its_fields working_solver
           (manifest_of [signed_entry;
                         VDict [("url", VStr "https://host/v?id=1");
                                ("s", VStr "TOKEN")]])
           "adaptive_fmts" "js" [signed_entry] [signed_entry]
           [("url", VStr "https://host/v?id=1"); ("s", VStr "TOKEN")]
           [] eq_refl eq_refl))
           "https://host/v?id=1" (VStr "TOKEN") "SIGTOKEN"); reflexivity.
Defined.

(** *** Descrambling, then resolving *)

Lemma dict_set_str_values (d : PyDict) k s :
  Forall (fun kv => exists s, snd kv = VStr s) d ->
  Forall (fun kv => exists s, snd kv = VStr s) (dict_set d k (VStr s)).
Proof.
  induction 1 as [|[k0 v0] d Hh Ht IH]; simpl.
  - repeat constructor. simpl. eauto.
  - destruct (String.eqb k0 k); constructor; simpl; eauto.
Qed.

Lemma dict_of_pairs_str_values (unquote : string -> string)
      (pairs : list (string * string)) : forall acc : PyDict,
  Forall (fun kv => exists s, snd kv = VStr s) acc ->
  Forall (fun kv => exists s, snd kv = VStr s)
         (fold_left (fun d kv => dict_set d (fst kv) (snd kv))
                    (map (fun kv => (fst kv, VStr (unquote (snd kv)))) pairs)
                    acc).
Proof.
  induction pairs as [|[k v] l IH]; intros acc Hacc; simpl; [exact Hacc|].
  apply IH. now apply dict_set_str_values.
Qed.

Lemma descramble_segment_str_record parse_qsl unquote segment :
  str_record (descramble_segment parse_qsl unquote segment).
Proof.
  unfold descramble_segment, dict_of_pairs. eexists. split; [reflexivity|].
  apply dict_of_pairs_str_values. constructor.
Qed.

Lemma dict_get_str_values (d : PyDict) k v :
  Forall (fun kv => exists s, snd kv = VStr s) d ->
  dict_get d k = Some v -> exists s, v = VStr s.
Proof.
  induction 1 as [|[k0 v0] d Hh Ht IH]; simpl; [discriminate|].
  destruct (String.eqb k0 k); [intros [= <-]; exact Hh | exact IH].
Qed.

Lemma sign_str_record solver js stream e :
  str_record stream -> sign_entry solver js stream = Err e ->
  resolution_failure solver js e.
Proof.
  intros (d & -> & Hd). unfold sign_entry, resolution_failure. simpl.
  destruct (dict_get d "url") as [url|] eqn:Hurl; simpl;
    [|intros [= <-]; auto].
  destruct (dict_get_str_values _ _ _ Hd Hurl) as [u ->]. simpl.
  destruct (str_contains "signature=" u); simpl; [discriminate|].
  destruct (dict_get d "s") as [tok|] eqn:Hs; simpl;
    [|intros [= <-]; auto].
  destruct (dict_get_str_values _ _ _ Hd Hs) as [t ->].
  destruct (solver js (VStr t)) as [sig|e'] eqn:Hsig; simpl;
    [|intros [= <-]; right; right; right; eauto].
  destruct (dict_get d "itag"); simpl; [discriminate|].
  intros [= <-]. auto.
Qed.

Lemma sign_str_records solver js manifest e manifest' :
  Forall str_record manifest ->
  sign_entries solver js manifest = (Err e, manifest') ->
  resolution_failure solver js e.
Proof.
  intros H. revert manifest'.
  induction H as [|x rest Hx _ IH]; intros manifest'; simpl; [discriminate|].
  destruct (sign_entry solver js x) as [x'|e'] eqn:E.
  - destruct (sign_entries solver js rest) as [r rest'].
    intros [= -> <-]. eapply IH. reflexivity.
  - intros [= <- <-]. eapply sign_str_record; eauto.
Qed.

(** X17. Resolving a family right after descrambling it can only fail
    for a missing [url], [s] or [itag] field, or with the error the
    solver raised on a string token: no type error arises. *)
Theorem resolution_after_descrambling
        parse_qsl unquote solver stream_data key stream_data' js e cfg :
  apply_descrambler parse_qsl unquote stream_data key = (Ok tt, stream_data') ->
  apply_signature solver stream_data' key js = (Err e, cfg) ->
  e = KeyError "url" \/ e = KeyError "s" \/ e = KeyError "itag" \/
  exists token, solver js (VStr token) = Err e.
Proof.
  unfold apply_descrambler.
  destruct (dict_get stream_data key) as [[| | |encoded| |]|]; try discriminate.
  intros [= <-]. unfold apply_signature. rewrite dict_get_set_eq. simpl.
  destruct (sign_entries solver js _) as [r items'] eqn:Hloop.
  intros [= -> <-].
  eapply (sign_str_records solver js _ e items'); [clear Hloop|exact Hloop].
  generalize (str_split "," encoded). intros segs.
  induction segs as [|seg segs IH]; simpl; constructor;
    [apply descramble_segment_str_record | exact IH].
Qed.

Lemma resolution_after_descrambling_witness :
  KeyError "s" = KeyError "url" \/ KeyError "s" = KeyError "s" \/
  KeyError "s" = KeyError "itag" \/
  exists token, working_solver "js" (VStr token) = Err (KeyError "s").
Proof.
  apply (resolution_after_descrambling Urllib.parse_qsl Urllib.unquote
           working_solver [("adaptive_fmts", VStr "itag=5&url=u1")]
           "adaptive_fmts"
           [("adaptive_fmts",
             VList [VDict [("itag", VStr "5"); ("url", VStr "u1")]])]
           "js" (KeyError "s")
           [("adaptive_fmts",
             VList [VDict [("itag", VStr "5"); ("url", VStr "u1")]])]);
    reflexivity.
Defined.

(** ** What the pipeline leaves alone *)

Section StoreFacts.

Context {U : Type}.
Variable py_int : PyVal -> Exc Z.
Variable request_headers : PyVal -> Exc PyVal.
Variable request_stream : PyVal -> list bytes * option PyErr.
Variable safe_filename : PyVal -> Exc string.
Variable target_directory : option string -> Exc string.
Variable P : gmap string bytes -> list bytes -> Prop.

Lemma stores_ret {A} (a : A) : keeps_stores (U:=U) P (ret a).
Proof. intros st H. exact H. Qed.

Lemma stores_raise {A} e : keeps_stores (U:=U) P (raise (A:=A) e).
Proof. intros st H. exact H. Qed.

Lemma stores_lift {A} (r : Exc A) : keeps_stores (U:=U) P (lift r).
Proof. intros st H. exact H. Qed.

Lemma stores_gets {A} (f : State U -> A) : keeps_stores P (gets f).
Proof. intros st H. exact H. Qed.

Lemma stores_modify (f : State U -> State U) :
  (forall st, P (files st) (buffers st) -> P (files (f st)) (buffers (f st))) ->
  keeps_stores P (modify f).
Proof. intros Hf st H. now apply Hf. Qed.

Lemma stores_bind {A B} (m : M A) (k : A -> M B) :
  keeps_stores (U:=U) P m -> (forall a, keeps_stores P (k a)) ->
  keeps_stores P (bind m k).
Proof.
  intros Hm Hk st H. specialize (Hm st H). unfold bind.
  destruct (m st) as [[a|e] st']; simpl in *; [now apply Hk | exact Hm].
Qed.

Ltac stores :=
  repeat first
    [ apply stores_ret | apply stores_raise | apply stores_lift
    | apply stores_gets
    | apply stores_bind; [|intros ?]
    | apply stores_modify; intros ? ?; assumption ].

Lemma stores_filesize : keeps_stores (U:=U) P (filesize py_int request_headers).
Proof.
  unfold filesize. apply stores_bind; [stores|]. intros self.
  destruct (_filesize self); stores.
Qed.

Lemma stores_call ev f : keeps_stores P (call (U:=U) ev f).
Proof. unfold call. stores. Qed.

Lemma stores_on_progress chunk sink r :
  write_keeps (U:=U) P sink -> keeps_stores P (on_progress (U:=U) chunk sink r).
Proof.
  intros Hw. unfold on_progress. apply stores_bind.
  - apply stores_modify. intros st H. apply (Hw st chunk H).
  - intros _. apply stores_bind; [stores|]. intros [f|]; [|stores].
    apply stores_bind; [stores|]. intros self. apply stores_call.
Qed.

Lemma stores_on_complete sink : keeps_stores P (on_complete (U:=U) sink).
Proof.
  unfold on_complete. apply stores_bind; [stores|]. intros [g|]; [|stores].
  apply stores_bind; [stores|]. intros self. apply stores_call.
Qed.

Lemma stores_transfer sink chunks :
  write_keeps (U:=U) P sink ->
  forall r, keeps_stores P (transfer (U:=U) sink chunks r).
Proof.
  intros Hw. induction chunks as [|c cs IH]; intros r; simpl; [stores|].
  apply stores_bind; [now apply stores_on_progress | intros _; apply IH].
Qed.

Lemma stores_stream_into sink r :
  write_keeps (U:=U) P sink ->
  keeps_stores P (stream_into (U:=U) request_stream sink r).
Proof.
  intros Hw. unfold stream_into. apply stores_bind; [stores|]. intros self.
  apply stores_bind; [stores|]. intros _.
  destruct (request_stream (url self)) as [chunks failure].
  apply stores_bind; [now apply stores_transfer|]. intros r'.
  destruct failure; stores.
Qed.

End StoreFacts.

(** X6. Whatever its outcome, [download] leaves every file other than
    the one at the resolved path as it was, and the buffers too. *)
Theorem download_touches_only_its_file {U} py_int request_headers
        request_stream safe_filename target_directory (st : State U)
        output_path filename filename_prefix skip_existing other :
  file_path_of safe_filename target_directory (this st)
               output_path filename filename_prefix <> Ok other ->
  files (snd (download py_int request_headers request_stream safe_filename
                       target_directory output_path filename filename_prefix
                       skip_existing st)) !! other = files st !! other /\
  buffers (snd (download py_int request_headers request_stream safe_filename
                         target_directory output_path filename filename_prefix
                         skip_existing st)) = buffers st.
Proof.
  intros Hother.
  set (P := fun (fs : gmap string bytes) (bs : list bytes) =>
              fs !! other = files st !! other /\ bs = buffers st).
  change (P (files (snd (download py_int request_headers request_stream
                                  safe_filename target_directory output_path
                                  filename filename_prefix skip_existing st)))
            (buffers (snd (download py_int request_headers request_stream
                                    safe_filename target_directory output_path
                                    filename filename_prefix skip_existing st)))).
  unfold download. rewrite bind_gets.
  destruct (file_path_of safe_filename target_directory (this st)
                         output_path filename filename_prefix) as [p|e] eqn:Hp;
    [|split; reflexivity].
  assert (p <> other) as Hne by congruence.
  rewrite (bind_lift_ok _ _ _ _ eq_refl).
  match goal with |- P (files (snd (?m st))) _ =>
    assert (keeps_stores P m) as Hkeeps end.
  { apply stores_bind; [apply stores_gets|]. intros existing.
    apply stores_bind.
    - destruct skip_existing, existing;
        try apply stores_ret.
      apply stores_bind; [apply stores_filesize | intros; apply stores_ret].
    - intros [|]; [apply stores_ret|].
      apply stores_bind; [apply stores_filesize|]. intros r.
      apply stores_bind; [apply stores_filesize|]. intros _.
      assert (write_keeps (U:=U) P (FileSink p)) as Hw.
      { intros s c [Hf Hb]. split; [|exact Hb]. simpl.
        rewrite lookup_insert_ne by exact Hne. exact Hf. }
      apply stores_bind.
      + apply stores_modify. intros s [Hf Hb]. split; [|exact Hb]. simpl.
        rewrite lookup_insert_ne by exact Hne. exact Hf.
      + intros _. apply stores_bind; [now apply stores_stream_into|]. intros _.
        apply stores_bind; [apply stores_on_complete|]. intros _.
        apply stores_ret. }
  apply Hkeeps. split; reflexivity.
Qed.

Lemma download_touches_witness :
  files (snd (download int_of headers_of stream_of safe_name directory_of
                       None None None true state_0)) !! "/tmp/other.webm" =
  files state_0 !! "/tmp/other.webm".
Proof.
  apply (download_touches_only_its_file int_of headers_of stream_of safe_name
           directory_of state_0 None None None true "/tmp/other.webm").
  discriminate.
Defined.

(** X7. Whatever its outcome, [stream_to_buffer] leaves the files as they
    were, allocates exactly one buffer and leaves the earlier buffers as
    they were; the buffer it returns is the new one. *)
Theorem stream_to_buffer_allocates_one {U} py_int request_headers
        request_stream (st : State U) :
  files (snd (stream_to_buffer py_int request_headers request_stream st)) =
  files st /\
  length (buffers (snd (stream_to_buffer py_int request_headers
                                         request_stream st))) =
  S (length (buffers st)) /\
  take (length (buffers st))
       (buffers (snd (stream_to_buffer py_int request_headers
                                       request_stream st))) = buffers st /\
  (forall sink st',
      stream_to_buffer py_int request_headers request_stream st = (Ok sink, st') ->
      sink = BufferSink (length (buffers st))).
Proof.
  set (n := length (buffers st)).
  set (P := fun (fs : gmap string bytes) (bs : list bytes) =>
              fs = files st /\ length bs = S n /\ take n bs = buffers st).
  assert (write_keeps (U:=U) P (BufferSink n)) as Hw.
  { intros s c (Hf & Hl & Ht). split; [exact Hf|]. simpl.
    rewrite length_alter, take_alter_ge by lia. auto. }
  set (s0 := with_buffers st (buffers st ++ [[]])).
  set (rest :=
         (bytes_remaining <- filesize (U:=U) py_int request_headers ;;
          _ <- filesize py_int request_headers ;;
          _ <- stream_into request_stream (BufferSink n) bytes_remaining ;;
          _ <- on_complete (BufferSink n) ;;
          ret (BufferSink n))%run).
  assert (stream_to_buffer py_int request_headers request_stream st = rest s0)
    as -> by reflexivity.
  assert (keeps_stores P rest) as Hkeeps.
  { apply stores_bind; [apply stores_filesize|]. intros r.
    apply stores_bind; [apply stores_filesize|]. intros _.
    apply stores_bind; [now apply stores_stream_into|]. intros _.
    apply stores_bind; [apply stores_on_complete|]. intros _.
    apply stores_ret. }
  assert (P (files s0) (buffers s0)) as H0.
  { split; [reflexivity|]. simpl. rewrite length_app. simpl.
    split; [subst n; lia|]. subst n. now rewrite take_app_length. }
  destruct (Hkeeps _ H0) as (Hf & Hl & Ht).
  split; [exact Hf|]. split; [exact Hl|]. split; [exact Ht|].
  intros sink st'. subst rest. unfold bind at 1.
  destruct (filesize py_int request_headers s0) as [[r|e] s1]; [|discriminate].
  unfold bind at 1.
  destruct (filesize py_int request_headers s1) as [[r'|e] s2]; [|discriminate].
  unfold bind at 1.
  destruct (stream_into request_stream (BufferSink n) r s2) as [[x|e] s3];
    [|discriminate].
  unfold bind at 1.
  destruct (on_complete (BufferSink n) s3) as [[y|e] s4]; [|discriminate].
  intros [= <- _]. reflexivity.
Qed.

(** ** When the size cannot be fetched *)

Section FailureFacts.

Context {U : Type}.
Variable py_int : PyVal -> Exc Z.
Variable request_headers : PyVal -> Exc PyVal.
Variable request_stream : PyVal -> list bytes * option PyErr.
Variable safe_filename : PyVal -> Exc string.
Variable target_directory : option string -> Exc string.

Lemma filesize_fails (st : State U) e :
  _filesize (this st) = None ->
  content_length py_int request_headers (url (this st)) = Err e ->
  filesize py_int request_headers st =
  (Err e, log (HeadersRequest (url (this st))) st).
Proof.
  intros Hc Hlen. unfold filesize, bind, gets, modify, lift, ret. simpl.
  rewrite Hc. unfold content_length in Hlen.
  destruct (request_headers (url (this st))) as [h|]; simpl in *;
    [|now injection Hlen as ->].
  destruct (py_getitem h "content-length") as [raw|]; simpl in *;
    [|now injection Hlen as ->].
  rewrite Hlen. reflexivity.
Qed.

Lemma bind_err {A B} (m : M (U:=U) A) (k : A -> M B) st e st' :
  m st = (Err e, st') -> bind m k st = (Err e, st').
Proof. intros H. unfold bind. now rewrite H. Qed.

End FailureFacts.

(** X8. When the size is not cached and cannot be fetched, [filesize]
    raises the error after one headers request and caches nothing, so
    the next access asks again; [download] raises it without creating or
    truncating the file and without a stream request;
    [stream_to_buffer] raises it with its buffer allocated and empty. *)
Theorem size_failure_leaves_no_trace {U} py_int request_headers request_stream
        safe_filename target_directory (st : State U) e :
  _filesize (this st) = None ->
  content_length py_int request_headers (url (this st)) = Err e ->
  filesize py_int request_headers st =
    (Err e, log (HeadersRequest (url (this st))) st) /\
  filesize py_int request_headers
           (log (HeadersRequest (url (this st))) st) =
    (Err e, log (HeadersRequest (url (this st)))
                (log (HeadersRequest (url (this st))) st)) /\
  (forall output_path filename filename_prefix skip_existing file_path,
      file_path_of safe_filename target_directory (this st)
                   output_path filename filename_prefix = Ok file_path ->
      download py_int request_headers request_stream safe_filename
               target_directory output_path filename filename_prefix
               skip_existing st =
      (Err e, log (HeadersRequest (url (this st))) st)) /\
  stream_to_buffer py_int request_headers request_stream st =
    (Err e, log (HeadersRequest (url (this st)))
                (with_buffers st (buffers st ++ [[]]))).
Proof.
  intros Hc Hlen.
  pose proof (filesize_fails py_int request_headers st e Hc Hlen) as Hfail.
  split; [exact Hfail|]. split.
  { exact (filesize_fails py_int request_headers
             (log (HeadersRequest (url (this st))) st) e Hc Hlen). }
  split.
  - intros o f pre k p Hpath. unfold download.
    rewrite bind_gets, (bind_lift_ok _ _ _ _ Hpath), bind_gets.
    destruct k; [destruct (files st !! p)|].
    + apply bind_err. apply bind_err. exact Hfail.
    + erewrite bind_ok by reflexivity. cbv beta iota.
      apply bind_err. exact Hfail.
    + erewrite bind_ok by reflexivity. cbv beta iota.
      apply bind_err. exact Hfail.
  - unfold stream_to_buffer. rewrite bind_gets, bind_modify.
    apply bind_err.
    exact (filesize_fails py_int request_headers
             (with_buffers st (buffers st ++ [[]])) e Hc Hlen).
Qed.

Lemma size_failure_witness :
  download int_of headers_down stream_of safe_name directory_of
           None None None true state_on_disk =
  (Err (Raised "URLError" "unreachable"),
   log (HeadersRequest (url stream_22)) state_on_disk).
Proof.
  apply (proj1 (proj2 (proj2 (size_failure_leaves_no_trace int_of headers_down
           stream_of safe_name directory_of state_on_disk
           (Raised "URLError" "unreachable") eq_refl eq_refl)))
           None None None true "/tmp/My Video.webm").
  reflexivity.
Defined.

Lemma stream_to_buffer_allocates_witness :
  files (snd (stream_to_buffer int_of headers_of stream_of state_on_disk)) =
  files state_on_disk /\
  length (buffers (snd (stream_to_buffer int_of headers_of stream_of
                                         state_on_disk))) = 1%nat.
Proof.
  split.
  - exact (proj1 (stream_to_buffer_allocates_one int_of headers_of
                    stream_of state_on_disk)).
  - exact (proj1 (proj2 (stream_to_buffer_allocates_one int_of headers_of
                           stream_of state_on_disk))).
Defined.

(** ** Transfers that do not complete *)

Section AbortFacts.

Context {U : Type}.
Variable py_int : PyVal -> Exc Z.
Variable request_headers : PyVal -> Exc PyVal.
Variable request_stream : PyVal -> list bytes * option PyErr.
Variable safe_filename : PyVal -> Exc string.
Variable target_directory : option string -> Exc string.

Lemma stream_aborts_on_callback {A} (x : A) (s1 : State U) sink T
      pre c post failure f e b u1 :
  request_stream (url (this s1)) = (pre ++ c :: post, failure) ->
  run_progress (monostate s1) (this s1) sink (progress_args T pre)
               (observer s1) = Ok u1 ->
  Monostate.on_progress (monostate s1) = Some f ->
  f (this s1) c sink (T - sum_len pre - Z.of_nat (length c)) u1 = Err e ->
  sink_content s1 sink = Some b ->
  exists st',
    bind (stream_into request_stream sink T)
         (fun _ => bind (on_complete sink) (fun _ => ret x)) s1 = (Err e, st') /\
    trace st' = trace s1 ++
                StreamRequest (url (this s1)) ::
                transfer_events (monostate s1) sink T pre ++
                [SinkWrite sink c;
                 ProgressCall c sink (T - sum_len pre - Z.of_nat (length c))] /\
    sink_content st' sink = Some (b ++ concat pre ++ c) /\
    observer st' = u1.
Proof.
  intros Hstream Hpre Hf Hraise Hb.
  set (s2 := log (StreamRequest (url (this s1))) s1).
  destruct (transfer_runs sink pre T s2 u1 Hpre)
    as (s3 & Hrun & Hthis & Hmono & Hobs & Htrace & Hcontent).
  assert (Monostate.on_progress (monostate s3) = Some f) as Hf3
      by (rewrite Hmono; exact Hf).
  assert (f (this s3) c sink (T - sum_len pre - Z.of_nat (length c))
            (observer s3) = Err e) as Hraise3
      by (rewrite Hthis, Hobs; exact Hraise).
  destruct (on_progress_stop s3 c sink
              (T - sum_len pre - Z.of_nat (length c)) f e Hf3 Hraise3)
    as (s4 & Hrun4 & Hthis4 & Hobs4 & Hfiles4 & Hbufs4 & Htrace4).
  exists s4. split; [|split; [|split]].
  - apply bind_err. unfold stream_into.
    rewrite bind_gets, bind_modify, Hstream. fold s2.
    apply bind_err. rewrite transfer_app, Hrun. cbn [transfer].
    apply bind_err. exact Hrun4.
  - rewrite Htrace4, Htrace. subst s2. simpl.
    rewrite <- !app_assoc. reflexivity.
  - pose proof (sink_write_content s3 sink c _ (Hcontent b
                  ltac:(destruct sink; exact Hb))) as Hw.
    rewrite <- app_assoc in Hw.
    destruct sink; simpl in *; congruence.
  - rewrite Hobs4. exact Hobs.
Qed.

Lemma stream_aborts_on_transport {A} (x : A) (s1 : State U) sink T
      chunks e b u1 :
  request_stream (url (this s1)) = (chunks, Some e) ->
  run_progress (monostate s1) (this s1) sink (progress_args T chunks)
               (observer s1) = Ok u1 ->
  sink_content s1 sink = Some b ->
  exists st',
    bind (stream_into request_stream sink T)
         (fun _ => bind (on_complete sink) (fun _ => ret x)) s1 = (Err e, st') /\
    trace st' = trace s1 ++
                StreamRequest (url (this s1)) ::
                transfer_events (monostate s1) sink T chunks /\
    sink_content st' sink = Some (b ++ concat chunks) /\
    observer st' = u1.
Proof.
  intros Hstream Hspec Hb.
  set (s2 := log (StreamRequest (url (this s1))) s1).
  destruct (transfer_runs sink chunks T s2 u1 Hspec)
    as (s3 & Hrun & Hthis & Hmono & Hobs & Htrace & Hcontent).
  exists s3. split; [|split; [|split]].
  - apply bind_err. unfold stream_into.
    rewrite bind_gets, bind_modify, Hstream. fold s2.
    rewrite (bind_ok _ _ _ _ _ Hrun). reflexivity.
  - rewrite Htrace. subst s2. simpl. rewrite <- app_assoc. reflexivity.
  - apply Hcontent. destruct sink; exact Hb.
  - exact Hobs.
Qed.

End AbortFacts.

Lemma complete_calls_after {U} (m : Monostate.t U) self u sink T chunks tail :
  List.filter is_complete_call
    (headers_events self ++ StreamRequest u ::
     transfer_events m sink T chunks ++ tail) =
  List.filter is_complete_call tail.
Proof.
  rewrite List.filter_app. cbn [List.filter is_complete_call].
  rewrite List.filter_app, transfer_events_no_complete.
  unfold headers_events. destruct (_filesize self); reflexivity.
Qed.

(** X9. When the progress callback has returned on the chunks before and
    raises on a chunk, [download] and [stream_to_buffer] raise that
    error: the sink holds the chunks up to and including that one (the
    write comes before the call), the later chunks are not written, the
    callbacks' state is what the calls that returned left, and the
    completion callback is not called. *)
Theorem progress_failure_aborts_transfer {U} py_int request_headers
        request_stream safe_filename target_directory (st : State U)
        T pre c post failure f e :
  has_size py_int request_headers (this st) T ->
  request_stream (url (this st)) = (pre ++ c :: post, failure) ->
  Monostate.on_progress (monostate st) = Some f ->
  (forall output_path filename filename_prefix skip_existing file_path u1,
      file_path_of safe_filename target_directory (this st)
                   output_path filename filename_prefix = Ok file_path ->
      (skip_existing = false \/
       forall content, files st !! file_path = Some content ->
                       Z.of_nat (length content) <> T) ->
      run_progress (monostate st) (set_filesize (this st) (Some T))
                   (FileSink file_path) (progress_args T pre) (observer st) =
      Ok u1 ->
      f (set_filesize (this st) (Some T)) c (FileSink file_path)
        (T - sum_len pre - Z.of_nat (length c)) u1 = Err e ->
      exists st',
        download py_int request_headers request_stream safe_filename
                 target_directory output_path filename filename_prefix
                 skip_existing st = (Err e, st') /\
        files st' !! file_path = Some (concat pre ++ c) /\
        observer st' = u1 /\
        trace st' = trace st ++ headers_events (this st) ++
                    StreamRequest (url (this st)) ::
                    transfer_events (monostate st) (FileSink file_path) T pre ++
                    [SinkWrite (FileSink file_path) c;
                     ProgressCall c (FileSink file_path)
                                  (T - sum_len pre - Z.of_nat (length c))] /\
        List.filter is_complete_call (trace st') =
        List.filter is_complete_call (trace st)) /\
  (forall u1,
      run_progress (monostate st) (set_filesize (this st) (Some T))
                   (BufferSink (length (buffers st))) (progress_args T pre)
                   (observer st) = Ok u1 ->
      f (set_filesize (this st) (Some T)) c (BufferSink (length (buffers st)))
        (T - sum_len pre - Z.of_nat (length c)) u1 = Err e ->
      exists st',
        stream_to_buffer py_int request_headers request_stream st =
        (Err e, st') /\
        buffers st' !! length (buffers st) = Some (concat pre ++ c) /\
        observer st' = u1 /\
        trace st' = trace st ++ headers_events (this st) ++
                    StreamRequest (url (this st)) ::
                    transfer_events (monostate st)
                      (BufferSink (length (buffers st))) T pre ++
                    [SinkWrite (BufferSink (length (buffers st))) c;
                     ProgressCall c (BufferSink (length (buffers st)))
                                  (T - sum_len pre - Z.of_nat (length c))] /\
        List.filter is_complete_call (trace st') =
        List.filter is_complete_call (trace st)).
Proof.
  intros Hsize Hstream Hf. split.
  - intros o fn pfx k p u1 Hpath Hnoskip Hpre Hraise.
    rewrite (download_reaches_transfer py_int request_headers request_stream
               safe_filename target_directory st o fn pfx k p T
               Hpath Hsize Hnoskip).
    set (s2 := with_files (after_filesize st T)
                 (<[p := []]> (files (after_filesize st T)))).
    destruct (stream_aborts_on_callback request_stream p s2 (FileSink p) T
                pre c post failure f e [] u1 Hstream Hpre Hf Hraise)
      as (st' & Hrun & Htrace & Hcontent & Hobs).
    { simpl. apply lookup_insert_eq. }
    exists st'. split; [exact Hrun|]. split; [exact Hcontent|].
    split; [exact Hobs|].
    assert (trace st' = trace st ++ headers_events (this st) ++
                    StreamRequest (url (this st)) ::
                    transfer_events (monostate st) (FileSink p) T pre ++
                    [SinkWrite (FileSink p) c;
                     ProgressCall c (FileSink p)
                                  (T - sum_len pre - Z.of_nat (length c))])
      as Ht by (rewrite Htrace; simpl; now rewrite <- app_assoc).
    split; [exact Ht|].
    rewrite Ht, List.filter_app, complete_calls_after. simpl.
    now rewrite app_nil_r.
  - intros u1 Hpre Hraise.
    rewrite (stream_to_buffer_reaches_transfer py_int request_headers
               request_stream st T Hsize).
    set (id := length (buffers st)) in *.
    set (s1 := after_filesize (with_buffers st (buffers st ++ [[]])) T).
    destruct (stream_aborts_on_callback request_stream (BufferSink id) s1
                (BufferSink id) T pre c post failure f e [] u1
                Hstream Hpre Hf Hraise)
      as (st' & Hrun & Htrace & Hcontent & Hobs).
    { simpl. subst id. rewrite lookup_app_r by reflexivity.
      rewrite Nat.sub_diag. reflexivity. }
    exists st'. split; [exact Hrun|]. split; [exact Hcontent|].
    split; [exact Hobs|].
    assert (trace st' = trace st ++ headers_events (this st) ++
                    StreamRequest (url (this st)) ::
                    transfer_events (monostate st) (BufferSink id) T pre ++
                    [SinkWrite (BufferSink id) c;
                     ProgressCall c (BufferSink id)
                                  (T - sum_len pre - Z.of_nat (length c))])
      as Ht by (rewrite Htrace; simpl; now rewrite <- app_assoc).
    split; [exact Ht|].
    rewrite Ht, List.filter_app, complete_calls_after. simpl.
    now rewrite app_nil_r.
Qed.

Lemma progress_failure_witness :
  exists st',
    download int_of headers_of stream_of safe_name directory_of
             None None None true state_picky =
    (Err (Raised "KeyboardInterrupt" "interrupted"), st') /\
    files st' !! "/tmp/My Video.webm" = Some (chunk_a ++ chunk_b) /\
    observer st' = 1%nat.
Proof.
  destruct (proj1 (progress_failure_aborts_transfer int_of headers_of stream_of
                     safe_name directory_of state_picky 6 [chunk_a] chunk_b []
                     None _ (Raised "KeyboardInterrupt" "interrupted")
                     (or_intror (conj eq_refl eq_refl)) eq_refl eq_refl)
              None None None true "/tmp/My Video.webm" 1%nat eq_refl)
    as (st' & Hrun & Hfile & Hobs & _).
  { right. intros content H. discriminate H. }
  { reflexivity. }
  { reflexivity. }
  exists st'. split; [exact Hrun|]. split; [exact Hfile | exact Hobs].
Defined.

(** X10. When the transport fails after some chunks, on each of which the
    progress callback returned, [download] and [stream_to_buffer] raise
    the transport's error: the sink holds the chunks that arrived, each
    was written and reported to the progress callback, whose calls in
    that order left the callbacks' state, and the completion callback is
    not called. *)
Theorem transport_failure_leaves_partial {U} py_int request_headers
        request_stream safe_filename target_directory (st : State U)
        T chunks e :
  has_size py_int request_headers (this st) T ->
  request_stream (url (this st)) = (chunks, Some e) ->
  (forall output_path filename filename_prefix skip_existing file_path u1,
      file_path_of safe_filename target_directory (this st)
                   output_path filename filename_prefix = Ok file_path ->
      (skip_existing = false \/
       forall content, files st !! file_path = Some content ->
                       Z.of_nat (length content) <> T) ->
      run_progress (monostate st) (set_filesize (this st) (Some T))
                   (FileSink file_path) (progress_args T chunks)
                   (observer st) = Ok u1 ->
      exists st',
        download py_int request_headers request_stream safe_filename
                 target_directory output_path filename filename_prefix
                 skip_existing st = (Err e, st') /\
        files st' !! file_path = Some (concat chunks) /\
        observer st' = u1 /\
        trace st' = trace st ++ headers_events (this st) ++
                    StreamRequest (url (this st)) ::
                    transfer_events (monostate st) (FileSink file_path) T chunks /\
        List.filter is_complete_call (trace st') =
        List.filter is_complete_call (trace st)) /\
  (forall u1,
      run_progress (monostate st) (set_filesize (this st) (Some T))
                   (BufferSink (length (buffers st))) (progress_args T chunks)
                   (observer st) = Ok u1 ->
      exists st',
        stream_to_buffer py_int request_headers request_stream st =
        (Err e, st') /\
        buffers st' !! length (buffers st) = Some (concat chunks) /\
        observer st' = u1 /\
        trace st' = trace st ++ headers_events (this st) ++
                    StreamRequest (url (this st)) ::
                    transfer_events (monostate st)
                      (BufferSink (length (buffers st))) T chunks /\
        List.filter is_complete_call (trace st') =
        List.filter is_complete_call (trace st)).
Proof.
  intros Hsize Hstream. split.
  - intros o fn pfx k p u1 Hpath Hnoskip Hspec.
    rewrite (download_reaches_transfer py_int request_headers request_stream
               safe_filename target_directory st o fn pfx k p T
               Hpath Hsize Hnoskip).
    set (s2 := with_files (after_filesize st T)
                 (<[p := []]> (files (after_filesize st T)))).
    destruct (stream_aborts_on_transport request_stream p s2 (FileSink p) T
                chunks e [] u1 Hstream Hspec)
      as (st' & Hrun & Htrace & Hcontent & Hobs).
    { simpl. apply lookup_insert_eq. }
    exists st'. split; [exact Hrun|]. split; [exact Hcontent|].
    split; [exact Hobs|].
    assert (trace st' = trace st ++ headers_events (this st) ++
                    StreamRequest (url (this st)) ::
                    transfer_events (monostate st) (FileSink p) T chunks)
      as Ht by (rewrite Htrace; simpl; now rewrite <- app_assoc).
    split; [exact Ht|].
    rewrite Ht, List.filter_app.
    rewrite <- (app_nil_r (transfer_events _ _ _ _)), complete_calls_after.
    simpl. now rewrite app_nil_r.
  - intros u1 Hspec.
    rewrite (stream_to_buffer_reaches_transfer py_int request_headers
               request_stream st T Hsize).
    set (id := length (buffers st)) in *.
    set (s1 := after_filesize (with_buffers st (buffers st ++ [[]])) T).
    destruct (stream_aborts_on_transport request_stream (BufferSink id) s1
                (BufferSink id) T chunks e [] u1 Hstream Hspec)
      as (st' & Hrun & Htrace & Hcontent & Hobs).
    { simpl. subst id. rewrite lookup_app_r by reflexivity.
      rewrite Nat.sub_diag. reflexivity. }
    exists st'. split; [exact Hrun|]. split; [exact Hcontent|].
    split; [exact Hobs|].
    assert (trace st' = trace st ++ headers_events (this st) ++
                    StreamRequest (url (this st)) ::
                    transfer_events (monostate st) (BufferSink id) T chunks)
      as Ht by (rewrite Htrace; simpl; now rewrite <- app_assoc).
    split; [exact Ht|].
    rewrite Ht, List.filter_app.
    rewrite <- (app_nil_r (transfer_events _ _ _ _)), complete_calls_after.
    simpl. now rewrite app_nil_r.
Qed.

Lemma transport_failure_witness :
  exists st',
    download int_of headers_of stream_cut safe_name directory_of
             None None None true state_0 =
    (Err (Raised "IncompleteRead" "connection reset"), st') /\
    files st' !! "/tmp/My Video.webm" = Some chunk_a /\
    observer st' = 1%nat.
Proof.
  destruct (proj1 (transport_failure_leaves_partial int_of headers_of stream_cut
                     safe_name directory_of state_0 6 [chunk_a]
                     (Raised "IncompleteRead" "connection reset")
                     (or_intror (conj eq_refl eq_refl)) eq_refl)
              None None None true "/tmp/My Video.webm" 1%nat eq_refl)
    as (st' & Hrun & Hfile & Hobs & _).
  { right. intros content H. discriminate H. }
  { reflexivity. }
  exists st'. split; [exact Hrun|]. split; [exact Hfile | exact Hobs].
Defined.




(** ** The file name *)

(** X5. When the title lookup raises, [download] without a file name, or
    with an empty one, raises that error before doing anything; with a
    non-empty file name the path depends on the descriptor through its
    subtype only; and an empty file name stands for none. *)
Theorem explicit_filename_bypasses_title {U} py_int request_headers
        request_stream safe_filename target_directory
        (st : State U) output_path filename_prefix :
  (forall e skip_existing,
      title (this st) = Err e ->
      download py_int request_headers request_stream safe_filename
               target_directory output_path None filename_prefix
               skip_existing st = (Err e, st) /\
      download py_int request_headers request_stream safe_filename
               target_directory output_path (Some ""%string) filename_prefix
               skip_existing st = (Err e, st)) /\
  (forall filename self',
      filename <> ""%string ->
      subtype self' = subtype (this st) ->
      file_path_of safe_filename target_directory (this st)
                   output_path (Some filename) filename_prefix =
      file_path_of safe_filename target_directory self'
                   output_path (Some filename) filename_prefix) /\
  file_path_of safe_filename target_directory (this st)
               output_path (Some ""%string) filename_prefix =
  file_path_of safe_filename target_directory (this st)
               output_path None filename_prefix.
Proof.
  split; [|split].
  - intros e k Ht.
    assert (forall fn, given fn = None ->
              file_path_of safe_filename target_directory (this st)
                           output_path fn filename_prefix = Err e) as Hpath.
    { intros fn Hfn. unfold file_path_of. rewrite Hfn.
      unfold default_filename. rewrite Ht. reflexivity. }
    split; unfold download; rewrite bind_gets;
      (apply bind_err; unfold lift; rewrite Hpath; reflexivity).
  - intros filename self' Hne Hsub. unfold file_path_of, given.
    apply String.eqb_neq in Hne. rewrite Hne, Hsub. reflexivity.
  - reflexivity.
Qed.

Lemma explicit_filename_witness :
  file_path_of safe_name directory_of
    (stream_with_config [("player_response", VStr "{}")])
    None (Some "clip"%string) (Some "01_"%string) =
  Ok "/tmp/01_clip.webm"%string.
Proof.
  rewrite (proj1 (proj2 (explicit_filename_bypasses_title
             int_of headers_of stream_of safe_name directory_of
             {| this := stream_with_config [("player_response", VStr "{}")];
                monostate := counting; files := ∅; buffers := [];
                trace := []; observer := 0%nat |}
             None (Some "01_"%string)))
             "clip"%string stream_22); [reflexivity | discriminate | reflexivity].
Defined.
